(** * Notebook export: folder paths, content resolution and the archive

    A shallow embedding of the export pipeline of
    [backend/services/file_service.py] (class [FileService]):
    [_sanitize_filename], [_get_folder_path], [get_file_bytes_from_s3] and
    [export_notebook_as_zip], with [delete_file] for contrast; and, in the
    part headed "Further definitions", the other operations of the service:
    [format_file_size], [generate_unique_filename], [upload_to_s3],
    [get_text_content_from_s3], [create_file_record], [update_file],
    [delete_file] with its commit, and [get_notebook_files_content].

    Conventions of the embedding.
    - A Python [str] is the list of its code points ([pystr]); [bytes] is a
      list of [Byte.byte].
    - An exception of class [Exception] is a value of [exn]; a computation
      that may raise returns a [py_result].
    - The interpreter's recursion limit is the parameter [depth] of
      [_get_folder_path]: the number of nested activations of the resolver
      that are still admitted. Running out of them is [RecursionError].
    - Calls on the collaborators (database session and repositories, blob
      storage client) are recorded in a log of [effect]s, threaded by the
      monad [M]. The repositories and the client are not part of the
      service; they are fields of [FileService] that answer each call.
    - The archive is the list of its entries, name and content, in the
      order they were written. [writestr] is the one of [zipfile] in
      Python 3.11: it cuts the name at its first NUL character and raises
      for a name that is then empty, that cannot be encoded, or whose
      encoding is longer than 65535 bytes. The clock is taken to be past
      1980, and the DEFLATE byte layout is not modelled.
    - The messages the handlers [print] are not part of the model: standard
      output is taken to accept them. The executor hand-off of the blob read
      is sequential here. *)

From Stdlib Require Import List ListDec NArith ZArith Arith Bool Lia.
From Stdlib.Strings Require Import String Ascii Byte.
Import ListNotations.
Local Open Scope N_scope.
Local Open Scope list_scope.

Set Implicit Arguments.

(** ** Python values *)

Definition pystr := list N.
Definition bytes := list Byte.byte.

(** A Rocq string literal read as a Python [str]. *)
Definition py (s : string) : pystr :=
  map N_of_ascii (list_ascii_of_string s).
Arguments py s%_string.

Fixpoint pystr_eqb (a b : pystr) : bool :=
  match a, b with
  | [], [] => true
  | x :: a', y :: b' => (x =? y) && pystr_eqb a' b'
  | _, _ => false
  end.

(** Truth value of a [str] or [bytes] object: non-empty. *)
Definition truthy {A} (l : list A) : bool :=
  match l with [] => false | _ :: _ => true end.

(** Truth value of an optional attribute: [None] is false. *)
Definition truthy_opt {A} (t : A -> bool) (o : option A) : bool :=
  match o with None => false | Some a => t a end.

Inductive exn : Type :=
| RecursionError
| UnicodeEncodeError
| IndexError
| StructError
| ClientError (msg : pystr).

Inductive py_result (A : Type) : Type :=
| Ok (a : A)
| Raise (e : exn).
Arguments Ok {A} a.
Arguments Raise {A} e.

(** Identifiers reach the service either as [str] or as [uuid.UUID]
    objects; the code only ever compares them through [str(...)] and tests
    their truth value. *)
Inductive ident : Type :=
| StrId (s : pystr)
| UuidId (canonical : pystr).

Definition str (i : ident) : pystr :=
  match i with StrId s => s | UuidId c => c end.

Definition truthy_id (i : ident) : bool :=
  match i with StrId s => truthy s | UuidId _ => true end.

(** ** Records *)

Module Folder.
Record t : Type := mk {
  id : ident;
  name : pystr;
  parent_id : option ident
}.
End Folder.

Inductive content_value : Type :=
| Text (s : pystr)
| Binary (b : bytes).

Definition truthy_content (c : content_value) : bool :=
  match c with Text s => truthy s | Binary b => truthy b end.

Module File.
Record t : Type := mk {
  filename : pystr;
  unique_filename : option pystr;
  content : option content_value;
  folder_id : option ident
}.
End File.

(** ** [_sanitize_filename] *)

(** The nine characters of the source's [invalid_chars] literal, as code
    points and in its order: less-than, greater-than, colon, double quote,
    slash, backslash, vertical bar, question mark, asterisk. *)
Definition invalid_chars : pystr := [60; 62; 58; 34; 47; 92; 124; 63; 42].

Definition underscore : N := 95.

(** [s.replace(old, new)] for one-character [old] and [new]. *)
Definition replace (old new : N) (s : pystr) : pystr :=
  map (fun c => if c =? old then new else c) s.

(** [str.isspace] on one code point: the whitespace table of the
    interpreter. *)
Definition isspace (c : N) : bool :=
  ((9 <=? c) && (c <=? 13)) || ((28 <=? c) && (c <=? 32))
  || (c =? 133) || (c =? 160) || (c =? 5760)
  || ((8192 <=? c) && (c <=? 8202))
  || (c =? 8232) || (c =? 8233) || (c =? 8239) || (c =? 8287)
  || (c =? 12288).

Fixpoint lstrip (s : pystr) : pystr :=
  match s with
  | [] => []
  | c :: s' => if isspace c then lstrip s' else s
  end.

Fixpoint rstrip (s : pystr) : pystr :=
  match s with
  | [] => []
  | c :: s' =>
      match rstrip s' with
      | [] => if isspace c then [] else [c]
      | r => c :: r
      end
  end.

Definition strip (s : pystr) : pystr := rstrip (lstrip s).

Definition _sanitize_filename (filename : pystr) : pystr :=
  strip (fold_left (fun filename char => replace char underscore filename)
                   invalid_chars filename).

(** What the replacements of [_sanitize_filename] do to one character. *)
Definition sanitize_char (chars : pystr) (c : N) : N :=
  fold_left (fun x char => if x =? char then underscore else x) chars c.

(** ** [_get_folder_path] *)

(** [next((f for f in all_folders if str(f.id) == str(i)), None)] *)
Definition find_folder (all_folders : list Folder.t) (i : ident)
  : option Folder.t :=
  find (fun f => pystr_eqb (str (Folder.id f)) (str i)) all_folders.

(** The parent the resolver moves to: [folder.parent_id] must be truthy and
    a folder with that identifier must be in [all_folders]. *)
Definition parent_of (all_folders : list Folder.t) (folder : Folder.t)
  : option Folder.t :=
  match Folder.parent_id folder with
  | Some pid => if truthy_id pid then find_folder all_folders pid else None
  | None => None
  end.

Definition slash : pystr := py "/".

Fixpoint _get_folder_path (depth : nat) (folder : Folder.t)
    (all_folders : list Folder.t) (path : pystr) : py_result pystr :=
  match depth with
  | O => Raise RecursionError
  | S depth' =>
      let current_path :=
        if truthy path then Folder.name folder ++ slash ++ path
        else Folder.name folder in
      match parent_of all_folders folder with
      | Some parent => _get_folder_path depth' parent all_folders current_path
      | None => Ok current_path
      end
  end.

(** The path of a folder as the export asks for it: [path] left at its
    default, the empty string. *)
Definition resolve_path (depth : nat) (all_folders : list Folder.t)
    (folder : Folder.t) : py_result pystr :=
  _get_folder_path depth folder all_folders [].

(** ** [str.encode('utf-8')] *)

Definition byte_of (n : N) : Byte.byte :=
  match Byte.of_N n with Some b => b | None => Byte.x00 end.

(** One code point. The surrogates U+D800..U+DFFF cannot be encoded: the
    codec raises [UnicodeEncodeError]. *)
Definition encode_char (c : N) : py_result bytes :=
  if c <? 128 then Ok [byte_of c]
  else if c <? 2048 then
    Ok [byte_of (192 + c / 64); byte_of (128 + c mod 64)]
  else if (55296 <=? c) && (c <=? 57343) then Raise UnicodeEncodeError
  else if c <? 65536 then
    Ok [byte_of (224 + c / 4096); byte_of (128 + (c / 64) mod 64);
        byte_of (128 + c mod 64)]
  else
    Ok [byte_of (240 + c / 262144); byte_of (128 + (c / 4096) mod 64);
        byte_of (128 + (c / 64) mod 64); byte_of (128 + c mod 64)].

Fixpoint encode_utf8 (s : pystr) : py_result bytes :=
  match s with
  | [] => Ok []
  | c :: s' =>
      match encode_char c with
      | Ok b =>
          match encode_utf8 s' with
          | Ok r => Ok (b ++ r)
          | Raise e => Raise e
          end
      | Raise e => Raise e
      end
  end.

(** ** Collaborators and their effects *)

(** The calls [FileService] makes on the database session, the
    repositories and the blob storage client. *)
Inductive effect : Type :=
| RepoListByUserId (user_id notebook_id : pystr)
| RepoGetByIdAndUser (file_id user_id : pystr)
| RepoCreate (filename : pystr)
| RepoUpdate (file_id : pystr)
| RepoDelete (file_id : pystr)
| SessionCommit
| SessionRefresh
| FolderRepoListByNotebook (user_id notebook_id : pystr)
| S3HeadBucket
| S3CreateBucket
| S3UploadFileobj (key : pystr)
| S3GetObject (key : pystr)
| S3DeleteObject (key : pystr).

(** The calls that change what is persisted: database create, update,
    delete and commit; bucket creation, upload and delete on blob storage. *)
Definition mutates (e : effect) : bool :=
  match e with
  | RepoCreate _ | RepoUpdate _ | RepoDelete _ | SessionCommit
  | S3CreateBucket | S3UploadFileobj _ | S3DeleteObject _ => true
  | RepoListByUserId _ _ | RepoGetByIdAndUser _ _ | SessionRefresh
  | FolderRepoListByNotebook _ _ | S3HeadBucket | S3GetObject _ => false
  end.

(** A computation: its outcome and the calls it made, in order. *)
Definition M (A : Type) : Type := (py_result A * list effect)%type.

Definition ret {A} (a : A) : M A := (Ok a, []).

Definition bind {A B} (m : M A) (k : A -> M B) : M B :=
  match m with
  | (Ok a, log) => let (r, log') := k a in (r, log ++ log')
  | (Raise e, log) => (Raise e, log)
  end.

(** [try: m  except Exception as e: h e] *)
Definition try_except {A} (m : M A) (h : exn -> M A) : M A :=
  match m with
  | (Ok a, log) => (Ok a, log)
  | (Raise e, log) => let (r, log') := h e in (r, log ++ log')
  end.

(** A computation without calls. *)
Definition lift {A} (r : py_result A) : M A := (r, []).

(** One call on a collaborator, with the answer it gives. *)
Definition perform {A} (e : effect) (answer : py_result A) : M A :=
  (answer, [e]).

Notation "x <- m ;; k" := (bind m (fun x => k))
  (at level 61, m at next level, right associativity).

Definition outcome {A} (m : M A) : py_result A := fst m.
Definition calls {A} (m : M A) : list effect := snd m.

Record FileRepository : Type := {
  list_by_user_id : pystr -> pystr -> py_result (list File.t);
  get_by_id_and_user : pystr -> pystr -> py_result (option File.t);
  delete : pystr -> py_result bool
}.

Record FolderRepository : Type := {
  list_by_notebook : pystr -> pystr -> py_result (list Folder.t)
}.

(** [get_object(Bucket, Key)['Body'].read()] and [delete_object]. *)
Record S3Client : Type := {
  get_object : pystr -> py_result bytes;
  delete_object : pystr -> py_result unit
}.

Record FileService : Type := {
  repo : FileRepository;
  s3_client : option S3Client;
  folder_repo : option FolderRepository
}.

(** ** [get_file_bytes_from_s3] *)

Definition get_file_bytes_from_s3 (self : FileService)
    (unique_filename : pystr) : M bytes :=
  match s3_client self with
  | None => ret []
  | Some client =>
      try_except
        (perform (S3GetObject unique_filename)
                 (get_object client unique_filename))
        (fun _ => ret [])
  end.

(** ** [delete_file], the sibling that does write *)

Definition delete_file (self : FileService) (user_id file_id : pystr)
  : M bool :=
  file_record <- perform (RepoGetByIdAndUser file_id user_id)
                   (get_by_id_and_user (repo self) file_id user_id) ;;
  match file_record with
  | None => ret false
  | Some file_record =>
      _ <- match s3_client self, File.unique_filename file_record with
           | Some client, Some key =>
               if truthy key then
                 try_except
                   (perform (S3DeleteObject key) (delete_object client key))
                   (fun _ => ret tt)
               else ret tt
           | _, _ => ret tt
           end ;;
      success <- perform (RepoDelete file_id) (delete (repo self) file_id) ;;
      if success then (_ <- perform SessionCommit (Ok tt) ;; ret success)
      else ret success
  end.

(** ** [export_notebook_as_zip] *)

(** The archive: the entries written, in order. *)
Definition archive : Type := list (pystr * bytes).

(** [ZipInfo(filename)] ends the name at its first NUL character. *)
Fixpoint cut_at_nul (filename : pystr) : pystr :=
  match filename with
  | [] => []
  | c :: rest => if c =? 0 then [] else c :: cut_at_nul rest
  end.

(** The length that fits the 16-bit field of the entry header. *)
Definition fits_header (encoded : bytes) : bool :=
  N.of_nat (List.length encoded) <=? 65535.

(** [zipf.writestr(zip_path, data)]. The name is cut at its first NUL;
    [zinfo.filename[-1]] raises [IndexError] on the empty name; the header
    holds the name encoded (ASCII, else UTF-8, which are the same bytes for
    an ASCII name), so that a lone surrogate raises [UnicodeEncodeError], and
    packs its length in 16 bits, so that more than 65535 bytes raise
    [struct.error]. What was written before stays in the archive. *)
Definition writestr (zipf : archive) (zip_path : pystr) (data : bytes)
  : py_result archive :=
  let filename := cut_at_nul zip_path in
  if truthy filename then
    match encode_utf8 filename with
    | Ok encoded =>
        if fits_header encoded then Ok (zipf ++ [(filename, data)])
        else Raise StructError
    | Raise e => Raise e
    end
  else Raise IndexError.

(** [notebook_name or "notebook"] *)
Definition or_default (notebook_name : option pystr) (default : pystr)
  : pystr :=
  match notebook_name with
  | Some s => if truthy s then s else default
  | None => default
  end.

Definition base_folder_of (notebook_name : option pystr) : pystr :=
  let safe_notebook_name :=
    _sanitize_filename (or_default notebook_name (py "notebook")) in
  safe_notebook_name ++ slash.

(** The first loop: one directory entry per folder, outside any [try]. *)
Fixpoint write_folders (depth : nat) (base_folder : pystr)
    (folders todo : list Folder.t) (zipf : archive) : M archive :=
  match todo with
  | [] => ret zipf
  | folder :: rest =>
      folder_path <- lift (_get_folder_path depth folder folders []) ;;
      let zip_path := base_folder ++ folder_path ++ slash in
      zipf' <- lift (writestr zipf zip_path []) ;;
      write_folders depth base_folder folders rest zipf'
  end.

(** Lines 359-376: the bytes of one file. *)
Definition resolve_content (self : FileService) (file : File.t) : M bytes :=
  let from_storage :=
    match File.unique_filename file with
    | Some key =>
        if truthy key then
          try_except (get_file_bytes_from_s3 self key) (fun _ => ret [])
        else ret []
    | None => ret []
    end in
  match File.content file with
  | Some c =>
      if truthy_content c then
        match c with
        | Text s => lift (encode_utf8 s)
        | Binary b => ret b
        end
      else from_storage
  | None => from_storage
  end.

(** Lines 379-390: the path of one file inside the archive. *)
Definition file_zip_path (depth : nat) (base_folder : pystr)
    (folders : list Folder.t) (file : File.t) : M pystr :=
  match File.folder_id file with
  | Some fid =>
      if truthy_id fid then
        match find_folder folders fid with
        | Some folder =>
            folder_path <- lift (_get_folder_path depth folder folders []) ;;
            ret (base_folder ++ folder_path ++ slash ++ File.filename file)
        | None => ret (base_folder ++ File.filename file)
        end
      else ret (base_folder ++ File.filename file)
  | None => ret (base_folder ++ File.filename file)
  end.

(** The body of the [try] of the second loop. *)
Definition add_file (self : FileService) (depth : nat) (base_folder : pystr)
    (folders : list Folder.t) (file : File.t) (zipf : archive) : M archive :=
  file_content <- resolve_content self file ;;
  zip_path <- file_zip_path depth base_folder folders file ;;
  lift (writestr zipf zip_path file_content).

(** The second loop: [except Exception: continue] leaves the archive as it
    was and goes on with the next file. *)
Fixpoint write_files (self : FileService) (depth : nat) (base_folder : pystr)
    (folders : list Folder.t) (files : list File.t) (zipf : archive)
  : M archive :=
  match files with
  | [] => ret zipf
  | file :: rest =>
      zipf' <- try_except (add_file self depth base_folder folders file zipf)
                          (fun _ => ret zipf) ;;
      write_files self depth base_folder folders rest zipf'
  end.

Definition export_notebook_as_zip (self : FileService) (depth : nat)
    (user_id notebook_id : pystr) (notebook_name : option pystr)
  : M archive :=
  files <- perform (RepoListByUserId user_id notebook_id)
             (list_by_user_id (repo self) user_id notebook_id) ;;
  let base_folder := base_folder_of notebook_name in
  folders <- match folder_repo self with
             | Some folder_repo =>
                 perform (FolderRepoListByNotebook user_id notebook_id)
                   (list_by_notebook folder_repo user_id notebook_id)
             | None => ret []
             end ;;
  zipf <- write_folders depth base_folder folders folders [] ;;
  write_files self depth base_folder folders files zipf.

(** * Auxiliary definitions and sample data *)

(** A set of folders closed under the parent lookup: every member has its
    parent in the set again. A cyclic parent chain is such a set. *)
Definition parent_closed (all_folders chain : list Folder.t) : Prop :=
  forall f, In f chain ->
    exists p, parent_of all_folders f = Some p /\ In p chain.

(** The two folders of the cycle A.parent = B, B.parent = A. *)
Definition folder_A : Folder.t :=
  Folder.mk (StrId (py "a")) (py "A") (Some (StrId (py "b"))).
Definition folder_B : Folder.t :=
  Folder.mk (StrId (py "b")) (py "B") (Some (StrId (py "a"))).
Definition cyclic_folders : list Folder.t := [folder_A; folder_B].

Definition orphan_folder : Folder.t :=
  Folder.mk (StrId (py "o")) (py "Orphan") (Some (StrId (py "gone"))).

(** A root [R], a child of [R] with the empty name, and a folder [leaf]
    below that child. *)
Definition root_R : Folder.t :=
  Folder.mk (UuidId (py "r")) (py "R") None.
Definition unnamed : Folder.t :=
  Folder.mk (UuidId (py "u")) [] (Some (StrId (py "r"))).
Definition leaf : Folder.t :=
  Folder.mk (UuidId (py "l")) (py "leaf") (Some (StrId (py "u"))).
Definition nested_folders : list Folder.t := [root_R; unnamed; leaf].

Definition resources : Folder.t :=
  Folder.mk (UuidId (py "1")) (py "Resources") None.
Definition drafts : Folder.t :=
  Folder.mk (UuidId (py "2")) (py "Drafts") (Some (StrId (py "1"))).
Definition old_drafts : Folder.t :=
  Folder.mk (UuidId (py "3")) (py "Old") (Some (UuidId (py "2"))).
Definition sample_folders : list Folder.t := [resources; drafts; old_drafts].

(** What one file contributes to the archive: its entry, or nothing when
    archiving it raised. *)
Definition archived (self : FileService) (depth : nat) (base_folder : pystr)
    (folders : list Folder.t) (file : File.t) : archive :=
  match outcome (add_file self depth base_folder folders file []) with
  | Ok entries => entries
  | Raise _ => []
  end.


(** A service over fixed listings, without blob storage. *)
Definition fixed_repo (files : list File.t) : FileRepository :=
  {| list_by_user_id := fun _ _ => Ok files;
     get_by_id_and_user := fun _ _ => Ok (hd_error files);
     delete := fun _ => Ok true |}.

Definition fixed_folders (folders : list Folder.t) : FolderRepository :=
  {| list_by_notebook := fun _ _ => Ok folders |}.

Definition service_without_storage (files : list File.t)
    (folders : list Folder.t) : FileService :=
  {| repo := fixed_repo files;
     s3_client := None;
     folder_repo := Some (fixed_folders folders) |}.

(** Inline text holding the lone surrogate U+D800. *)
Definition surrogate_file : File.t :=
  File.mk (py "bad.md") (Some (py "k1")) (Some (Text [55296])) None.

Definition hello_file : File.t :=
  File.mk (py "a.md") (Some (py "k2")) (Some (Text (py "hello"))) None.

Definition b_file : File.t :=
  File.mk (py "b.md") (Some (py "k3")) None (Some (StrId (py "1"))).

(** The folder listing of the export: empty without a folder repository. *)
Definition listed_folders (self : FileService) (user_id notebook_id : pystr)
  : py_result (list Folder.t) :=
  match folder_repo self with
  | Some folder_repo => list_by_notebook folder_repo user_id notebook_id
  | None => Ok []
  end.

(** Whether [writestr] accepts an entry name: after the cut at the first
    NUL the name is not empty, can be encoded, and fits the header. *)
Definition writable (zip_path : pystr) : bool :=
  truthy (cut_at_nul zip_path)
  && match encode_utf8 (cut_at_nul zip_path) with
     | Ok encoded => fits_header encoded
     | Raise _ => false
     end.

(** The entry [writestr] adds for a name and a content, if it adds one. *)
Definition entry_written (zip_path : pystr) (data : bytes) : archive :=
  if writable zip_path then [(cut_at_nul zip_path, data)] else [].

(** The directory entry of a folder whose path resolved to [folder_path]. *)
Definition directory_entry (base_folder folder_path : pystr)
  : pystr * bytes :=
  (cut_at_nul (base_folder ++ folder_path ++ slash), []).

(** A folder whose path resolves to [folder_path] and whose directory entry
    [writestr] accepts. *)
Definition folder_written (depth : nat) (base_folder : pystr)
    (folders : list Folder.t) (folder : Folder.t) (folder_path : pystr)
  : Prop :=
  resolve_path depth folders folder = Ok folder_path
  /\ writable (base_folder ++ folder_path ++ slash) = true.

(** A file whose name holds a NUL character, with inline text. *)
Definition nul_file : File.t :=
  File.mk (py "a" ++ [0] ++ py "b.md") None (Some (Text (py "x"))) None.

(** A name of 65536 letters, one more than the entry header can count. *)
Definition long_name : pystr := repeat 97 (Nat.pow 2 16).

(** A file in blob storage under that name. *)
Definition long_named : File.t :=
  File.mk long_name (Some (py "k4")) None None.

(** Blob storage over a finite table of objects; a missing key raises. *)
Definition client_over (objects : list (pystr * bytes)) : S3Client :=
  {| get_object := fun key =>
       match find (fun kv => pystr_eqb (fst kv) key) objects with
       | Some kv => Ok (snd kv)
       | None => Raise (ClientError (py "NoSuchKey"))
       end;
     delete_object := fun _ => Ok tt |}.

Definition service_with_storage (files : list File.t)
    (folders : list Folder.t) (objects : list (pystr * bytes)) : FileService :=
  {| repo := fixed_repo files;
     s3_client := Some (client_over objects);
     folder_repo := Some (fixed_folders folders) |}.

Definition missing_wav : File.t :=
  File.mk (py "take.wav") (Some (py "missing.wav")) None None.

Definition sample_objects : list (pystr * bytes) :=
  [(py "k3", [Byte.x01; Byte.x02])].

Definition hello_bytes : bytes :=
  [Byte.x68; Byte.x65; Byte.x6c; Byte.x6c; Byte.x6f].

(** A store that counts the writes it receives. *)
Definition count_writes (e : effect) (writes : nat) : nat :=
  if mutates e then S writes else writes.

(** * Further definitions *)

(** ** Parent chains *)

(** [chain] lists the folders a walk from [folder] visits after it: each one
    is the parent the resolver finds for the one before. *)
Fixpoint linked (all_folders : list Folder.t) (folder : Folder.t)
    (chain : list Folder.t) : Prop :=
  match chain with
  | [] => True
  | parent :: rest =>
      parent_of all_folders folder = Some parent
      /\ linked all_folders parent rest
  end.

(** A walk that ends: the last folder it reaches has no parent to go to. *)
Definition parent_chain (all_folders : list Folder.t) (folder : Folder.t)
    (chain : list Folder.t) : Prop :=
  linked all_folders folder chain
  /\ parent_of all_folders (last chain folder) = None.

(** ["/".join(parts)] *)
Fixpoint join_slash (parts : list pystr) : pystr :=
  match parts with
  | [] => []
  | [p] => p
  | p :: rest => p ++ slash ++ join_slash rest
  end.

(** The folders of a walk, from the first one that has a name on. *)
Fixpoint drop_unnamed (walk : list Folder.t) : list Folder.t :=
  match walk with
  | [] => []
  | f :: rest => if truthy (Folder.name f) then walk else drop_unnamed rest
  end.

(** What a walk accumulates, folder by folder, as [current_path]. *)
Fixpoint accumulate (walk : list Folder.t) (path : pystr) : pystr :=
  match walk with
  | [] => path
  | f :: rest =>
      accumulate rest (if truthy path then Folder.name f ++ slash ++ path
                       else Folder.name f)
  end.

(** ** The export, entry by entry *)

(** The blob storage reads one file causes: one, for its key, when a client
    is configured, the file has no non-empty inline content and its storage
    key is non-empty; none otherwise. *)
Definition storage_reads (self : FileService) (file : File.t)
  : list effect :=
  match s3_client self with
  | None => []
  | Some _ =>
      if truthy_opt truthy_content (File.content file) then []
      else match File.unique_filename file with
           | Some key => if truthy key then [S3GetObject key] else []
           | None => []
           end
  end.


(** ** The writing operations *)

(** [exn] names the two exceptions the export depends on; an exception of
    any other class is carried by [ClientError] with its message. *)
Definition ValueError (msg : pystr) : exn := ClientError msg.

(** The answers of the database session. *)
Record Session : Type := {
  commit : py_result unit;
  refresh : py_result unit
}.

(** The further methods of the blob storage client: [head_bucket],
    [create_bucket] and [upload_fileobj] on a key with a content type. *)
Record S3Bucket : Type := {
  head_bucket : py_result unit;
  create_bucket : py_result unit;
  upload_fileobj : pystr -> pystr -> py_result unit
}.

Module Crud.

(** [delete_file], with the commit answered by the session. *)
Definition delete_file (session : Session) (self : FileService)
    (user_id file_id : pystr) : M bool :=
  file_record <- perform (RepoGetByIdAndUser file_id user_id)
                   (get_by_id_and_user (repo self) file_id user_id) ;;
  match file_record with
  | None => ret false
  | Some file_record =>
      _ <- match s3_client self, File.unique_filename file_record with
           | Some client, Some key =>
               if truthy key then
                 try_except
                   (perform (S3DeleteObject key) (delete_object client key))
                   (fun _ => ret tt)
               else ret tt
           | _, _ => ret tt
           end ;;
      success <- perform (RepoDelete file_id) (delete (repo self) file_id) ;;
      if success then
        (_ <- perform SessionCommit (commit session) ;; ret success)
      else ret success
  end.

(** [update_file]; [update] is the answer of
    [repo.update(file_id, updates, merge_processing_result)] for the updates
    at hand. *)
Definition update_file (session : Session)
    (update : pystr -> py_result (option File.t)) (self : FileService)
    (user_id file_id : pystr) : M (option File.t) :=
  file_to_update <- perform (RepoGetByIdAndUser file_id user_id)
                      (get_by_id_and_user (repo self) file_id user_id) ;;
  match file_to_update with
  | None => ret None
  | Some _ =>
      file_record <- perform (RepoUpdate file_id) (update file_id) ;;
      match file_record with
      | Some _ =>
          _ <- perform SessionCommit (commit session) ;;
          _ <- perform SessionRefresh (refresh session) ;;
          ret file_record
      | None => ret file_record
      end
  end.

(** [create_file_record]; [create] is the answer of [repo.create] for the
    fields at hand. *)
Definition create_file_record (session : Session)
    (create : py_result File.t) (filename : pystr) : M File.t :=
  file_record <- perform (RepoCreate filename) create ;;
  _ <- perform SessionCommit (commit session) ;;
  _ <- perform SessionRefresh (refresh session) ;;
  ret file_record.

(** [upload_to_s3]. [seek] is [None] for a file object without [seek], and
    otherwise the answer of [file_obj.seek(0)]; [endpoint] and [bucket_name]
    are the module constants [S3_ENDPOINT] and [BUCKET_NAME]. *)
Definition upload_to_s3 (endpoint bucket_name : pystr) (bucket : S3Bucket)
    (self : FileService) (seek : option (py_result unit))
    (object_name content_type : pystr) : M pystr :=
  match s3_client self with
  | None => lift (Raise (ValueError (py "S3 Client not configured")))
  | Some _ =>
      _ <- try_except (perform S3HeadBucket (head_bucket bucket))
             (fun _ =>
                try_except (perform S3CreateBucket (create_bucket bucket))
                  (fun _ => ret tt)) ;;
      _ <- match seek with
           | Some answer => lift answer
           | None => ret tt
           end ;;
      _ <- perform (S3UploadFileobj object_name)
             (upload_fileobj bucket object_name content_type) ;;
      ret (endpoint ++ slash ++ bucket_name ++ slash ++ object_name)
  end.

End Crud.

(** A session whose commits and refreshes go through. *)
Definition always_commits : Session := {| commit := Ok tt; refresh := Ok tt |}.

(** A bucket that does not exist yet and can be created. *)
Definition bucket_missing : S3Bucket :=
  {| head_bucket := Raise (ClientError (py "404"));
     create_bucket := Ok tt;
     upload_fileobj := fun _ _ => Ok tt |}.

(** ** [bytes.decode('utf-8')] and [get_text_content_from_s3] *)

Definition UnicodeDecodeError : exn := ClientError (py "UnicodeDecodeError").

(** A continuation byte, [0x80..0xBF]. *)
Definition is_continuation (b : Byte.byte) : bool :=
  (128 <=? Byte.to_N b) && (Byte.to_N b <? 192).

(** The payload of a continuation byte. *)
Definition low6 (b : Byte.byte) : N := Byte.to_N b - 128.

(** The strict decoder: [None] stands for [UnicodeDecodeError]. A sequence
    is refused when a continuation byte is missing or out of range, when it
    is longer than its code point needs, when it encodes a surrogate, or
    when it goes beyond U+10FFFF. *)
Fixpoint decode_utf8 (data : bytes) : option pystr :=
  match data with
  | [] => Some []
  | b0 :: rest =>
      let n0 := Byte.to_N b0 in
      if n0 <? 128 then option_map (cons n0) (decode_utf8 rest)
      else if n0 <? 192 then None
      else if n0 <? 224 then
        match rest with
        | b1 :: rest1 =>
            let c := (n0 - 192) * 64 + low6 b1 in
            if is_continuation b1 && (128 <=? c)
            then option_map (cons c) (decode_utf8 rest1)
            else None
        | _ => None
        end
      else if n0 <? 240 then
        match rest with
        | b1 :: b2 :: rest2 =>
            let c := (n0 - 224) * 4096 + low6 b1 * 64 + low6 b2 in
            if is_continuation b1 && is_continuation b2 && (2048 <=? c)
               && negb ((55296 <=? c) && (c <=? 57343))
            then option_map (cons c) (decode_utf8 rest2)
            else None
        | _ => None
        end
      else if n0 <? 248 then
        match rest with
        | b1 :: b2 :: b3 :: rest3 =>
            let c := (n0 - 240) * 262144 + low6 b1 * 4096 + low6 b2 * 64
                     + low6 b3 in
            if is_continuation b1 && is_continuation b2
               && is_continuation b3 && (65536 <=? c) && (c <=? 1114111)
            then option_map (cons c) (decode_utf8 rest3)
            else None
        | _ => None
        end
      else None
  end.

Definition get_text_content_from_s3 (self : FileService)
    (unique_filename : pystr) : M pystr :=
  match s3_client self with
  | None => ret []
  | Some client =>
      try_except
        (data <- perform (S3GetObject unique_filename)
                   (get_object client unique_filename) ;;
         match decode_utf8 data with
         | Some text => ret text
         | None => lift (Raise UnicodeDecodeError)
         end)
        (fun _ => ret [])
  end.

(** ** [get_notebook_files_content] *)

(** [file.processing_result]: a dict, here with text values, or some other
    value. *)
Inductive result_value : Type :=
| ResultDict (items : list (pystr * pystr))
| ResultOther.

(** A file record with the two further attributes this function reads. *)
Record NotebookFile : Type := {
  file_of : File.t;
  content_type : option pystr;
  processing_result : option result_value
}.

(** [s.startswith(prefix)] *)
Fixpoint startswith (prefix s : pystr) : bool :=
  match prefix, s with
  | [], _ => true
  | p :: prefix', c :: s' => (p =? c) && startswith prefix' s'
  | _ :: _, [] => false
  end.

(** [file.content_type and file.content_type.startswith(prefix)] *)
Definition has_type (prefix : pystr) (file : NotebookFile) : bool :=
  match content_type file with
  | Some t => truthy t && startswith prefix t
  | None => false
  end.

(** [d.get(key)] on the items of a dict. *)
Definition dict_get (key : pystr) (items : list (pystr * pystr))
  : option pystr :=
  option_map snd (find (fun kv => pystr_eqb (fst kv) key) items).

(** [sep.join(parts)] *)
Fixpoint join (sep : pystr) (parts : list pystr) : pystr :=
  match parts with
  | [] => []
  | [p] => p
  | p :: rest => p ++ sep ++ join sep rest
  end.

Definition newline : pystr := [10].

(** The body of the [try] for one file: the part it adds, if any. A record
    without storage key gives no text; the client refuses the missing key and
    the reader returns the empty string. *)
Definition file_part (self : FileService) (file : NotebookFile)
  : M (list pystr) :=
  if has_type (py "text/") file then
    text_content <- match File.unique_filename (file_of file) with
                    | Some key => get_text_content_from_s3 self key
                    | None => ret []
                    end ;;
    if truthy text_content then
      ret [py "--- File: " ++ File.filename (file_of file) ++ py " ---"
           ++ newline ++ text_content]
    else ret []
  else if has_type (py "audio/") file then
    match processing_result file with
    | Some (ResultDict items) =>
        if truthy items then
          match dict_get (py "transcription") items with
          | Some transcription =>
              if truthy transcription then
                ret [py "--- File: " ++ File.filename (file_of file)
                     ++ py " (Transcription) ---" ++ newline
                     ++ transcription]
              else ret []
          | None => ret []
          end
        else ret []
    | _ => ret []
    end
  else ret [].

Fixpoint collect_parts (self : FileService) (files : list NotebookFile)
    (content_parts : list pystr) : M (list pystr) :=
  match files with
  | [] => ret content_parts
  | file :: rest =>
      content_parts' <- try_except
                          (part <- file_part self file ;;
                           ret (content_parts ++ part))
                          (fun _ => ret content_parts) ;;
      collect_parts self rest content_parts'
  end.

(** [listing] is the answer of [repo.list_by_user_id], the records with
    their content type and processing result. *)
Definition get_notebook_files_content (self : FileService)
    (listing : py_result (list NotebookFile)) (user_id notebook_id : pystr)
  : M pystr :=
  files <- perform (RepoListByUserId user_id notebook_id) listing ;;
  if truthy files then
    content_parts <- collect_parts self files [] ;;
    ret (join (newline ++ newline) content_parts)
  else ret [].

(** The files [get_notebook_files_content] looks at: text and audio. *)
Definition is_text_or_audio (file : NotebookFile) : bool :=
  has_type (py "text/") file || has_type (py "audio/") file.

(** What one file adds to the parts; nothing when its [try] raised. *)
Definition part_of (self : FileService) (file : NotebookFile)
  : list pystr :=
  match outcome (file_part self file) with
  | Ok part => part
  | Raise _ => []
  end.

Definition notes_txt : NotebookFile :=
  {| file_of := File.mk (py "notes.txt") (Some (py "k")) None None;
     content_type := Some (py "text/plain");
     processing_result := None |}.

Definition take_wav : NotebookFile :=
  {| file_of := missing_wav;
     content_type := Some (py "audio/wav");
     processing_result :=
       Some (ResultDict [(py "transcription", py "hi")]) |}.

Definition cover_png : NotebookFile :=
  {| file_of := File.mk (py "cover.png") (Some (py "k9")) None None;
     content_type := Some (py "image/png");
     processing_result := None |}.

(** ** [generate_unique_filename] *)

Definition dot : N := 46.

(** [s.rsplit(sep, 1)[1]] when [sep] occurs in [s]: what follows the last
    [sep]. [None] when [sep] does not occur. *)
Fixpoint after_last (sep : N) (s : pystr) : option pystr :=
  match s with
  | [] => None
  | c :: rest =>
      match after_last sep rest with
      | Some tail => Some tail
      | None => if c =? sep then Some rest else None
      end
  end.

(** [lower] is [str.lower]; [timestamp] is the decimal text of
    [int(time.time())] and [uuid_hex] is [uuid.uuid4().hex]. *)
Definition generate_unique_filename (lower : pystr -> pystr)
    (timestamp uuid_hex : pystr) (original_filename : pystr) : pystr :=
  let extension :=
    match after_last dot original_filename with
    | Some tail => lower tail
    | None => []
    end in
  let unique_id := timestamp ++ py "_" ++ uuid_hex in
  if truthy extension then unique_id ++ py "." ++ extension else unique_id.

(** [str.lower] on the letters A to Z, for the samples. *)
Definition lower_ascii (s : pystr) : pystr :=
  map (fun c => if (65 <=? c) && (c <=? 90) then c + 32 else c) s.

(** ** [format_file_size] *)

(** The digits of a decimal numeral as text. *)
Fixpoint uint_digits (d : Decimal.uint) : pystr :=
  match d with
  | Decimal.Nil => []
  | Decimal.D0 r => 48 :: uint_digits r
  | Decimal.D1 r => 49 :: uint_digits r
  | Decimal.D2 r => 50 :: uint_digits r
  | Decimal.D3 r => 51 :: uint_digits r
  | Decimal.D4 r => 52 :: uint_digits r
  | Decimal.D5 r => 53 :: uint_digits r
  | Decimal.D6 r => 54 :: uint_digits r
  | Decimal.D7 r => 55 :: uint_digits r
  | Decimal.D8 r => 56 :: uint_digits r
  | Decimal.D9 r => 57 :: uint_digits r
  end.

(** [str(n)] for a natural number. *)
Definition decimal (n : N) : pystr := uint_digits (N.to_uint n).

(** [s.rstrip(c)] for a one-character argument. *)
Fixpoint rstrip_char (c : N) (s : pystr) : pystr :=
  match s with
  | [] => []
  | x :: s' =>
      match rstrip_char c s' with
      | [] => if x =? c then [] else [x]
      | r => x :: r
      end
  end.

Definition size_names : list pystr :=
  [py "B"; py "KB"; py "MB"; py "GB"; py "TB"].

(** The loop [while size >= 1024 and size_index < len(size_names) - 1], on
    the size as the exact fraction [num / den]. The index stops the loop
    after four rounds at the latest, which is what [rounds] counts. *)
Fixpoint scale (rounds : nat) (num den : N) (size_index : nat)
  : N * N * nat :=
  match rounds with
  | O => (num, den, size_index)
  | S rounds' =>
      if (1024 * den <=? num) && (size_index <? 4)%nat
      then scale rounds' num (den * 1024) (S size_index)
      else (num, den, size_index)
  end.

(** The number of tenths nearest to [num / den], ties going to the even
    one: the digits [f"{size:.1f}"] shows. *)
Definition nearest_tenths (num den : N) : N :=
  let q := (10 * num) / den in
  let r := (10 * num) mod den in
  if 2 * r <? den then q
  else if den <? 2 * r then q + 1
  else if N.even q then q else q + 1.

(** [f"{size:.1f}"] for a size of [tenths] tenths. *)
Definition fixed1 (tenths : N) : pystr :=
  decimal (tenths / 10) ++ dot :: decimal (tenths mod 10).

(** [format_file_size]. The float [size] is held as an exact fraction: for
    [size_bytes] below [2^53] the conversion to float and the divisions by
    1024 are exact, and the formatting rounds the exact value. *)
Definition format_file_size (size_bytes : option Z) : pystr :=
  match size_bytes with
  | None => py "0 B"
  | Some n =>
      if (n <? 0)%Z then py "0 B"
      else if (n =? 0)%Z then py "0 B"
      else
        let '(num, den, size_index) := scale 4 (Z.to_N n) 1 0 in
        let formatted_size :=
          rstrip_char dot (rstrip_char 48 (fixed1 (nearest_tenths num den))) in
        formatted_size ++ py " " ++ nth size_index size_names []
  end.

(** * Properties *)

(** ** The sanitizer *)

Section Sanitizer.

Lemma replacements_pointwise (chars s : pystr) :
  fold_left (fun filename char => replace char underscore filename) chars s
  = map (sanitize_char chars) s.
Proof.
  revert s; induction chars as [|ch chars IH]; intros s; simpl.
  - now rewrite map_id.
  - rewrite IH. unfold replace. rewrite map_map. reflexivity.
Qed.

Lemma sanitize_char_fixed (chars : pystr) (c : N) :
  ~ In c chars -> sanitize_char chars c = c.
Proof.
  revert c; induction chars as [|ch chars IH]; intros c Hc; simpl.
  - reflexivity.
  - destruct (N.eqb_spec c ch) as [->|Hne].
    + exfalso; apply Hc; now left.
    + apply IH. intros Hin; apply Hc; now right.
Qed.

Lemma sanitize_char_valid (c : N) :
  ~ In (sanitize_char invalid_chars c) invalid_chars.
Proof.
  destruct (in_dec N.eq_dec c invalid_chars) as [Hin|Hout].
  - simpl in Hin.
    repeat (destruct Hin as [<-|Hin];
            [vm_compute; intuition discriminate|]).
    contradiction.
  - now rewrite sanitize_char_fixed.
Qed.

Lemma lstrip_incl (s : pystr) (c : N) : In c (lstrip s) -> In c s.
Proof.
  induction s as [|a s IH]; simpl; auto.
  destruct (isspace a); intros H; auto.
Qed.

Lemma rstrip_incl (s : pystr) (c : N) : In c (rstrip s) -> In c s.
Proof.
  induction s as [|a s IH]; simpl; auto.
  destruct (rstrip s) as [|b r].
  - destruct (isspace a); simpl; tauto.
  - intros [H|H]; auto.
Qed.

Lemma strip_incl (s : pystr) (c : N) : In c (strip s) -> In c s.
Proof. intros H. apply lstrip_incl, rstrip_incl, H. Qed.

(** What [lstrip] returns does not start with whitespace. *)
Lemma lstrip_head (s : pystr) :
  match lstrip s with [] => True | c :: _ => isspace c = false end.
Proof.
  induction s as [|a s IH]; simpl; auto.
  destruct (isspace a) eqn:E; auto.
Qed.

Lemma rstrip_cons_keep (c : N) (s : pystr) :
  isspace c = false -> rstrip (c :: s) = c :: rstrip s.
Proof. intros H; simpl. rewrite H. destruct (rstrip s); reflexivity. Qed.

Lemma rstrip_idem (s : pystr) : rstrip (rstrip s) = rstrip s.
Proof.
  induction s as [|a s IH]; simpl; auto.
  destruct (rstrip s) as [|b r] eqn:E.
  - destruct (isspace a) eqn:Ea; simpl; auto; now rewrite Ea.
  - change (rstrip (a :: b :: r)) with
      (match rstrip (b :: r) with
       | [] => if isspace a then [] else [a]
       | n :: l => a :: n :: l
       end).
    rewrite IH. reflexivity.
Qed.

Lemma strip_idem (s : pystr) : strip (strip s) = strip s.
Proof.
  unfold strip. pose proof (lstrip_head s) as H.
  destruct (lstrip s) as [|c t].
  - reflexivity.
  - rewrite rstrip_cons_keep by exact H. simpl lstrip. rewrite H.
    rewrite rstrip_cons_keep by exact H. now rewrite rstrip_idem.
Qed.

Lemma map_fixed (f : N -> N) (s : pystr) :
  (forall c, In c s -> f c = c) -> map f s = s.
Proof.
  induction s as [|a s IH]; simpl; intros H; auto.
  rewrite H by now left. rewrite IH; auto.
Qed.

End Sanitizer.

Lemma sanitize_clean (x : pystr) (c : N) :
  In c (_sanitize_filename x) -> ~ In c invalid_chars.
Proof.
  intros Hc. unfold _sanitize_filename in Hc.
  apply strip_incl in Hc. rewrite replacements_pointwise in Hc.
  apply in_map_iff in Hc. destruct Hc as [c0 [<- _]].
  apply sanitize_char_valid.
Qed.

(** C7. The notebook-name sanitizer is idempotent, and none of the characters
    of [invalid_chars] (less-than, greater-than, colon, double quote, slash,
    backslash, vertical bar, question mark, asterisk) occurs in its output,
    whatever the input string. *)
Theorem sanitize_idempotent_and_clean (x : pystr) :
  _sanitize_filename (_sanitize_filename x) = _sanitize_filename x
  /\ Forall (fun c => ~ In c (_sanitize_filename x)) invalid_chars.
Proof.
  split.
  - unfold _sanitize_filename at 1. rewrite replacements_pointwise.
    rewrite map_fixed.
    + unfold _sanitize_filename. apply strip_idem.
    + intros c Hc. apply sanitize_char_fixed. exact (@sanitize_clean x c Hc).
  - apply Forall_forall. intros c Hc Hin. exact (@sanitize_clean x c Hin Hc).
Qed.

(** ** The folder path resolver *)

Section Resolver.

Variable all_folders : list Folder.t.

Lemma find_folder_in (i : ident) (f : Folder.t) :
  find_folder all_folders i = Some f -> In f all_folders.
Proof. intros H. apply find_some in H. tauto. Qed.

Lemma parent_of_in (folder parent : Folder.t) :
  parent_of all_folders folder = Some parent -> In parent all_folders.
Proof.
  unfold parent_of. destruct (Folder.parent_id folder) as [pid|]; try easy.
  destruct (truthy_id pid); try easy. apply find_folder_in.
Qed.

(** Once the accumulated path is non-empty, whatever follows it is carried
    to the end unchanged. *)
Lemma path_suffix_carried (depth : nat) :
  forall (folder : Folder.t) (path suffix : pystr),
    truthy path = true ->
    _get_folder_path depth folder all_folders (path ++ suffix)
    = match _get_folder_path depth folder all_folders path with
      | Ok p => Ok (p ++ suffix)
      | Raise e => Raise e
      end.
Proof.
  induction depth as [|depth IH]; intros folder path suffix Hp;
    cbn [_get_folder_path].
  - reflexivity.
  - assert (Hps : truthy (path ++ suffix) = true)
      by (destruct path; [discriminate|reflexivity]).
    rewrite Hp, Hps.
    replace (Folder.name folder ++ slash ++ path ++ suffix)
      with ((Folder.name folder ++ slash ++ path) ++ suffix)
      by now rewrite <- !app_assoc.
    destruct (parent_of all_folders folder) as [parent|].
    + apply IH. unfold slash. destruct (Folder.name folder); reflexivity.
    + reflexivity.
Qed.

(** Whether the walk returns does not depend on the accumulated path. *)
Lemma returns_whatever_path (depth : nat) :
  forall (folder : Folder.t) (path path' p : pystr),
    _get_folder_path depth folder all_folders path = Ok p ->
    exists p', _get_folder_path depth folder all_folders path' = Ok p'.
Proof.
  induction depth as [|depth IH]; intros folder path path' p; simpl.
  - discriminate.
  - destruct (parent_of all_folders folder) as [parent|].
    + apply IH.
    + intros _. eexists; reflexivity.
Qed.

(** More frames never change a path that was returned. *)
Lemma more_depth (depth : nat) :
  forall (folder : Folder.t) (path p : pystr),
    _get_folder_path depth folder all_folders path = Ok p ->
    _get_folder_path (S depth) folder all_folders path = Ok p.
Proof.
  induction depth as [|depth IH]; intros folder path p.
  - discriminate.
  - intros H. simpl in H.
    change (_get_folder_path (S (S depth)) folder all_folders path) with
      (let current_path :=
         if truthy path then Folder.name folder ++ slash ++ path
         else Folder.name folder in
       match parent_of all_folders folder with
       | Some parent =>
           _get_folder_path (S depth) parent all_folders current_path
       | None => Ok current_path
       end).
    cbv zeta. destruct (parent_of all_folders folder) as [parent|].
    + apply IH, H.
    + exact H.
Qed.

Lemma closed_chain_never_returns (chain : list Folder.t) :
  parent_closed all_folders chain ->
  forall (depth : nat) (folder : Folder.t) (path : pystr),
    In folder chain ->
    _get_folder_path depth folder all_folders path = Raise RecursionError.
Proof.
  intros Hclosed depth; induction depth as [|depth IH];
    intros folder path Hin; simpl.
  - reflexivity.
  - destruct (Hclosed folder Hin) as [p [Hp Hpin]]. rewrite Hp.
    apply IH, Hpin.
Qed.

End Resolver.

Lemma cyclic_folders_closed : parent_closed cyclic_folders cyclic_folders.
Proof.
  intros f [<-|[<-|[]]].
  - exists folder_B. split; [reflexivity|right; now left].
  - exists folder_A. split; [reflexivity|now left].
Qed.

(** C1. On the cyclic parent chain A.parent = B, B.parent = A the resolver
    returns no path at all: whatever the number of frames it may open, the
    recursion uses them up and ends in [RecursionError]. There is no
    fallback path. *)
Theorem cycle_exhausts_recursion (depth : nat) :
  resolve_path depth cyclic_folders folder_A = Raise RecursionError
  /\ resolve_path depth cyclic_folders folder_B = Raise RecursionError.
Proof.
  split; unfold resolve_path;
    apply (closed_chain_never_returns cyclic_folders_closed); simpl; auto.
Qed.

(** C4. A folder with no parent reference, and a folder whose parent id is set
    but matches no folder of the provided set, resolves to its own name: it is
    treated as a root and nothing is raised. *)
Theorem root_or_dangling_resolves_to_name
    (all_folders : list Folder.t) (F : Folder.t) (depth : nat) :
  Folder.parent_id F = None
  \/ (exists pid, Folder.parent_id F = Some pid
                  /\ find_folder all_folders pid = None) ->
  resolve_path (S depth) all_folders F = Ok (Folder.name F).
Proof.
  intros H. unfold resolve_path; simpl.
  assert (Hp : parent_of all_folders F = None).
  { unfold parent_of. destruct H as [->|[pid [-> Hf]]]; auto.
    rewrite Hf. now destruct (truthy_id pid). }
  now rewrite Hp.
Qed.

Lemma root_or_dangling_resolves_to_name_witness :
  resolve_path 1 cyclic_folders orphan_folder = Ok (py "Orphan").
Proof.
  apply (@root_or_dangling_resolves_to_name cyclic_folders orphan_folder 0).
  right. exists (StrId (py "gone")). split; reflexivity.
Defined.

(** C3, as stated, fails for the empty name: the folder [unnamed] has its
    parent [root_R] in the set, [root_R] resolves to [R], and [unnamed]
    resolves to [R] too, not to [R/]. *)
Lemma empty_name_is_dropped :
  parent_of nested_folders unnamed = Some root_R
  /\ resolve_path 1 nested_folders root_R = Ok (py "R")
  /\ resolve_path 2 nested_folders unnamed = Ok (py "R")
  /\ resolve_path 2 nested_folders unnamed
     <> Ok (py "R" ++ slash ++ Folder.name unnamed).
Proof. repeat split; try reflexivity. vm_compute. discriminate. Qed.

(** The same happens one level up: [leaf] has a name, but its parent
    [unnamed] has none and is not a root. [unnamed] resolves to [R], [leaf]
    to [R//leaf]. *)
Example empty_parent_name_doubles_separator :
  parent_of nested_folders leaf = Some unnamed
  /\ resolve_path 2 nested_folders unnamed = Ok (py "R")
  /\ resolve_path 3 nested_folders leaf = Ok (py "R//leaf").
Proof. repeat split. Qed.

(** C3 (amended). For every folder F with a non-empty name whose parent P is
    found in the provided set (by string equality of the identifiers), where P
    has a non-empty name or is itself a root: when P resolves to [p], F
    resolves, with one more frame, to [p + "/" + F.name]. *)
Theorem child_path_extends_parent
    (all_folders : list Folder.t) (F P : Folder.t) (depth : nat) (p : pystr) :
  parent_of all_folders F = Some P ->
  truthy (Folder.name F) = true ->
  truthy (Folder.name P) = true \/ parent_of all_folders P = None ->
  resolve_path depth all_folders P = Ok p ->
  resolve_path (S depth) all_folders F = Ok (p ++ slash ++ Folder.name F).
Proof.
  intros HP HF HPname Hp. unfold resolve_path in *.
  cbn [_get_folder_path truthy]. rewrite HP.
  destruct depth as [|depth]; [discriminate|].
  cbn [_get_folder_path] in *. rewrite HF. cbn [truthy] in Hp.
  destruct (parent_of all_folders P) as [Q|] eqn:HQ.
  - destruct HPname as [HPname|]; [|discriminate].
    rewrite (path_suffix_carried all_folders depth Q (Folder.name P)
               (slash ++ Folder.name F) HPname).
    now rewrite Hp.
  - now inversion Hp.
Qed.

Lemma child_path_extends_parent_witness :
  resolve_path 3 sample_folders old_drafts = Ok (py "Resources/Drafts/Old").
Proof.
  apply (@child_path_extends_parent sample_folders old_drafts drafts 2
           (py "Resources/Drafts")).
  - reflexivity.
  - reflexivity.
  - left; reflexivity.
  - reflexivity.
Defined.

(** ** Outcome and calls of composed computations *)

Section Monad.

Context {A B : Type}.

Lemma outcome_bind (m : M A) (k : A -> M B) :
  outcome (bind m k)
  = match outcome m with
    | Ok a => outcome (k a)
    | Raise e => Raise e
    end.
Proof.
  destruct m as [[a|e] l]; unfold bind, outcome; cbn [fst]; auto.
  now destruct (k a).
Qed.

Lemma calls_bind (m : M A) (k : A -> M B) :
  calls (bind m k)
  = calls m ++ match outcome m with
               | Ok a => calls (k a)
               | Raise _ => []
               end.
Proof.
  destruct m as [[a|e] l]; unfold bind, outcome, calls; cbn [fst snd].
  - now destruct (k a).
  - now rewrite app_nil_r.
Qed.

Lemma outcome_try_except (m : M A) (h : exn -> M A) :
  outcome (try_except m h)
  = match outcome m with
    | Ok a => Ok a
    | Raise e => outcome (h e)
    end.
Proof.
  destruct m as [[a|e] l]; unfold try_except, outcome; cbn [fst]; auto.
  now destruct (h e).
Qed.

Lemma calls_try_except (m : M A) (h : exn -> M A) :
  calls (try_except m h)
  = calls m ++ match outcome m with
               | Ok _ => []
               | Raise e => calls (h e)
               end.
Proof.
  destruct m as [[a|e] l]; unfold try_except, outcome, calls; cbn [fst snd].
  - now rewrite app_nil_r.
  - now destruct (h e).
Qed.

End Monad.

(** ** Content resolution *)

Section Content.

Variable self : FileService.

Lemma get_file_bytes_never_raises (key : pystr) :
  outcome (get_file_bytes_from_s3 self key)
  = Ok (match s3_client self with
        | Some client =>
            match get_object client key with
            | Ok b => b
            | Raise _ => []
            end
        | None => []
        end).
Proof.
  unfold get_file_bytes_from_s3.
  destruct (s3_client self) as [client|]; [|reflexivity].
  rewrite outcome_try_except. unfold perform, outcome; cbn [fst].
  now destruct (get_object client key).
Qed.

Lemma get_file_bytes_calls (key : pystr) :
  calls (get_file_bytes_from_s3 self key)
  = match s3_client self with
    | Some _ => [S3GetObject key]
    | None => []
    end.
Proof.
  unfold get_file_bytes_from_s3.
  destruct (s3_client self) as [client|]; [|reflexivity].
  rewrite calls_try_except. unfold perform, outcome, calls; cbn [fst snd].
  now destruct (get_object client key).
Qed.

Lemma resolve_content_calls (file : File.t) :
  Forall (fun e => mutates e = false) (calls (resolve_content self file)).
Proof.
  assert (Hs : Forall (fun e => mutates e = false)
                 (calls match File.unique_filename file with
                        | Some key =>
                            if truthy key then
                              try_except (get_file_bytes_from_s3 self key)
                                         (fun _ => ret [])
                            else ret []
                        | None => ret []
                        end)).
  { destruct (File.unique_filename file) as [key|]; [|constructor].
    destruct (truthy key); [|constructor].
    rewrite calls_try_except, get_file_bytes_never_raises,
      get_file_bytes_calls, app_nil_r.
    destruct (s3_client self); repeat constructor. }
  unfold resolve_content.
  destruct (File.content file) as [c|]; [|exact Hs].
  destruct (truthy_content c); [|exact Hs].
  destruct c; constructor.
Qed.

End Content.




(** ** [writestr] *)

Lemma bind_lift {A B : Type} (r : py_result A) (k : A -> M B) :
  bind (lift r) k
  = match r with
    | Ok a => k a
    | Raise e => (Raise e, [])
    end.
Proof.
  unfold bind, lift. destruct r as [a|e]; [|reflexivity].
  now destruct (k a).
Qed.

Lemma writestr_writable (zipf : archive) (zip_path : pystr) (data : bytes) :
  writable zip_path = true ->
  writestr zipf zip_path data = Ok (zipf ++ [(cut_at_nul zip_path, data)]).
Proof.
  unfold writable, writestr. intros H. apply andb_prop in H.
  destruct H as [Ht He]. rewrite Ht.
  destruct (encode_utf8 (cut_at_nul zip_path)) as [encoded|e];
    [|discriminate].
  now rewrite He.
Qed.

Lemma writestr_unwritable (zipf : archive) (zip_path : pystr)
    (data : bytes) :
  writable zip_path = false ->
  exists e, writestr zipf zip_path data = Raise e.
Proof.
  unfold writable, writestr. intros H.
  destruct (truthy (cut_at_nul zip_path)); [|eexists; reflexivity].
  destruct (encode_utf8 (cut_at_nul zip_path)) as [encoded|e];
    [|eexists; reflexivity].
  cbn [andb] in H. rewrite H. eexists; reflexivity.
Qed.

Lemma writestr_inv (zipf z : archive) (zip_path : pystr) (data : bytes) :
  writestr zipf zip_path data = Ok z ->
  writable zip_path = true /\ z = zipf ++ [(cut_at_nul zip_path, data)].
Proof.
  intros H. destruct (writable zip_path) eqn:W.
  - rewrite (@writestr_writable zipf zip_path data W) in H. inversion H. auto.
  - destruct (@writestr_unwritable zipf zip_path data W) as [e E]. congruence.
Qed.

(** What [writestr] adds does not depend on what is in the archive. *)
Lemma writestr_appends (zipf : archive) (zip_path : pystr) (data : bytes) :
  writestr zipf zip_path data
  = match writestr [] zip_path data with
    | Ok entries => Ok (zipf ++ entries)
    | Raise e => Raise e
    end.
Proof.
  unfold writestr. destruct (truthy (cut_at_nul zip_path)); [|reflexivity].
  destruct (encode_utf8 (cut_at_nul zip_path)) as [encoded|e];
    [|reflexivity].
  now destruct (fits_header encoded).
Qed.

Lemma cut_at_nul_app (a b : pystr) :
  ~ In 0 a -> cut_at_nul (a ++ b) = a ++ cut_at_nul b.
Proof.
  induction a as [|c a IH]; intros H; cbn [app cut_at_nul]; [reflexivity|].
  destruct (N.eqb_spec c 0) as [->|_].
  - exfalso. apply H. now left.
  - rewrite IH; [reflexivity|]. intros Hin. apply H. now right.
Qed.

Lemma cut_at_nul_id (a : pystr) : ~ In 0 a -> cut_at_nul a = a.
Proof.
  intros H. rewrite <- (app_nil_r a) at 1.
  rewrite (@cut_at_nul_app a [] H). cbn [cut_at_nul]. apply app_nil_r.
Qed.

(** ** Per-file behaviour inside the export *)

Section Files.

Variables (self : FileService) (depth : nat) (base_folder : pystr)
          (folders : list Folder.t).

Lemma file_zip_path_calls (file : File.t) :
  calls (file_zip_path depth base_folder folders file) = [].
Proof.
  unfold file_zip_path.
  destruct (File.folder_id file) as [fid|]; [|reflexivity].
  destruct (truthy_id fid); [|reflexivity].
  destruct (find_folder folders fid) as [folder|]; [|reflexivity].
  rewrite calls_bind. unfold lift, calls, outcome; cbn [fst snd].
  now destruct (_get_folder_path depth folder folders []).
Qed.

(** The three cases of lines 379-390. *)
Lemma file_zip_path_cases (file : File.t) (zip_path : pystr) :
  outcome (file_zip_path depth base_folder folders file) = Ok zip_path ->
  (forall fid folder,
      File.folder_id file = Some fid -> truthy_id fid = true ->
      find_folder folders fid = Some folder ->
      exists folder_path,
        resolve_path depth folders folder = Ok folder_path
        /\ zip_path
           = base_folder ++ folder_path ++ slash ++ File.filename file)
  /\ (forall fid,
        File.folder_id file = Some fid ->
        find_folder folders fid = None ->
        zip_path = base_folder ++ File.filename file)
  /\ (File.folder_id file = None ->
      zip_path = base_folder ++ File.filename file).
Proof.
  unfold file_zip_path, resolve_path. intros H. repeat split.
  - intros fid folder Hf Ht Hfind. rewrite Hf, Ht, Hfind in H.
    rewrite outcome_bind in H. unfold lift, ret, outcome in H; cbn [fst] in H.
    destruct (_get_folder_path depth folder folders []) as [p|e];
      [|discriminate].
    exists p. split; [reflexivity|]. now inversion H.
  - intros fid Hf Hfind. rewrite Hf, Hfind in H.
    destruct (truthy_id fid); now inversion H.
  - intros Hf. rewrite Hf in H. now inversion H.
Qed.

Lemma file_zip_path_prefix (file : File.t) (zip_path : pystr) :
  outcome (file_zip_path depth base_folder folders file) = Ok zip_path ->
  exists rest, zip_path = base_folder ++ rest.
Proof.
  unfold file_zip_path.
  destruct (File.folder_id file) as [fid|];
    [|intros H; inversion H; eauto].
  destruct (truthy_id fid); [|intros H; inversion H; eauto].
  destruct (find_folder folders fid) as [folder|];
    [|intros H; inversion H; eauto].
  rewrite outcome_bind. unfold lift, outcome; cbn [fst].
  destruct (_get_folder_path depth folder folders []) as [p|e];
    [|discriminate].
  intros H; inversion H; eauto.
Qed.

(** After the folder loop went through, the path of every file
    resolves. *)
Lemma file_zip_path_returns (file : File.t) :
  (forall f, In f folders -> exists p, resolve_path depth folders f = Ok p) ->
  exists zip_path,
    outcome (file_zip_path depth base_folder folders file) = Ok zip_path.
Proof.
  intros Hres. unfold file_zip_path.
  destruct (File.folder_id file) as [fid|]; [|eexists; reflexivity].
  destruct (truthy_id fid); [|eexists; reflexivity].
  destruct (find_folder folders fid) as [folder|] eqn:Ef;
    [|eexists; reflexivity].
  destruct (Hres folder (find_folder_in _ _ Ef)) as [p Hp].
  unfold resolve_path in Hp. rewrite outcome_bind.
  unfold lift, outcome; cbn [fst]. rewrite Hp. eexists; reflexivity.
Qed.

(** The outcome of the body of the [try]: the content is resolved, the path
    is computed, and the entry is written to the archive. *)
Lemma add_file_outcome (file : File.t) (zipf : archive) :
  outcome (add_file self depth base_folder folders file zipf)
  = match outcome (resolve_content self file) with
    | Ok file_content =>
        match outcome (file_zip_path depth base_folder folders file) with
        | Ok zip_path => writestr zipf zip_path file_content
        | Raise e => Raise e
        end
    | Raise e => Raise e
    end.
Proof.
  unfold add_file. rewrite outcome_bind.
  destruct (outcome (resolve_content self file)) as [c|e]; [|reflexivity].
  rewrite outcome_bind.
  destruct (outcome (file_zip_path depth base_folder folders file));
    reflexivity.
Qed.

Lemma archived_spec (file : File.t) :
  archived self depth base_folder folders file
  = match outcome (resolve_content self file),
          outcome (file_zip_path depth base_folder folders file) with
    | Ok file_content, Ok zip_path => entry_written zip_path file_content
    | _, _ => []
    end.
Proof.
  unfold archived. rewrite add_file_outcome.
  destruct (outcome (resolve_content self file)) as [c|e]; [|reflexivity].
  destruct (outcome (file_zip_path depth base_folder folders file))
    as [zp|e]; [|reflexivity].
  unfold entry_written. destruct (writable zp) eqn:W.
  - now rewrite (@writestr_writable [] _ c W).
  - destruct (@writestr_unwritable [] _ c W) as [e E]. now rewrite E.
Qed.

(** One round of the second loop: the archive grows by what the file
    contributes, which is nothing when its [try] raised. *)
Lemma try_add_file_outcome (file : File.t) (zipf : archive) :
  outcome (try_except (add_file self depth base_folder folders file zipf)
             (fun _ => ret zipf))
  = Ok (zipf ++ archived self depth base_folder folders file).
Proof.
  rewrite outcome_try_except. unfold archived. rewrite !add_file_outcome.
  destruct (outcome (resolve_content self file)) as [c|e];
    [|unfold ret, outcome; cbn [fst]; now rewrite app_nil_r].
  destruct (outcome (file_zip_path depth base_folder folders file))
    as [zp|e];
    [|unfold ret, outcome; cbn [fst]; now rewrite app_nil_r].
  rewrite (writestr_appends zipf).
  destruct (writestr [] zp c) as [entries|e]; [reflexivity|].
  unfold ret, outcome; cbn [fst]. now rewrite app_nil_r.
Qed.

Lemma write_files_outcome (files : list File.t) :
  forall zipf,
    outcome (write_files self depth base_folder folders files zipf)
    = Ok (zipf ++ flat_map (archived self depth base_folder folders) files).
Proof.
  induction files as [|file rest IH]; intros zipf;
    cbn [write_files flat_map].
  - unfold ret, outcome; cbn [fst]. now rewrite app_nil_r.
  - rewrite outcome_bind, try_add_file_outcome, IH.
    now rewrite <- app_assoc.
Qed.

Lemma add_file_calls (file : File.t) (zipf : archive) :
  calls (add_file self depth base_folder folders file zipf)
  = calls (resolve_content self file).
Proof.
  unfold add_file. rewrite calls_bind.
  destruct (outcome (resolve_content self file));
    [|now rewrite app_nil_r].
  rewrite calls_bind, file_zip_path_calls.
  destruct (outcome (file_zip_path depth base_folder folders file));
    now rewrite app_nil_r.
Qed.

Lemma write_files_log (files : list File.t) :
  forall zipf,
    calls (write_files self depth base_folder folders files zipf)
    = flat_map (fun file => calls (resolve_content self file)) files.
Proof.
  induction files as [|file rest IH]; intros zipf;
    cbn [write_files flat_map].
  - reflexivity.
  - rewrite calls_bind, calls_try_except, add_file_calls.
    rewrite try_add_file_outcome, IH.
    destruct (outcome (add_file self depth base_folder folders file zipf));
      unfold ret, calls at 2; cbn [snd]; now rewrite app_nil_r.
Qed.

Lemma write_files_calls (files : list File.t) :
  forall zipf,
    Forall (fun e => mutates e = false)
           (calls (write_files self depth base_folder folders files zipf)).
Proof.
  intros zipf. rewrite write_files_log.
  apply Forall_flat_map, Forall_forall. intros file _.
  apply resolve_content_calls.
Qed.

End Files.

(** ** The folder loop *)

Section Folders.

Variables (depth : nat) (base_folder : pystr) (folders : list Folder.t).

Lemma write_folders_cons (folder : Folder.t) (rest : list Folder.t)
    (zipf : archive) :
  write_folders depth base_folder folders (folder :: rest) zipf
  = match resolve_path depth folders folder with
    | Ok folder_path =>
        match writestr zipf (base_folder ++ folder_path ++ slash) [] with
        | Ok zipf' => write_folders depth base_folder folders rest zipf'
        | Raise e => (Raise e, [])
        end
    | Raise e => (Raise e, [])
    end.
Proof.
  cbn [write_folders]. unfold resolve_path. rewrite bind_lift.
  destruct (_get_folder_path depth folder folders []) as [p|e];
    [|reflexivity].
  now rewrite bind_lift.
Qed.

(** When the folder loop returns, every folder resolved and its directory
    entry was written, in order. *)
Lemma write_folders_exact (todo : list Folder.t) :
  forall zipf z log,
    write_folders depth base_folder folders todo zipf = (Ok z, log) ->
    exists paths,
      Forall2 (folder_written depth base_folder folders) todo paths
      /\ z = zipf ++ map (directory_entry base_folder) paths.
Proof.
  induction todo as [|f rest IH]; intros zipf z log.
  - cbn [write_folders]. intros H. inversion H; subst.
    exists []. split; [constructor|]. now rewrite app_nil_r.
  - rewrite write_folders_cons.
    destruct (resolve_path depth folders f) as [p|e] eqn:Ef;
      [|discriminate].
    destruct (writestr zipf (base_folder ++ p ++ slash) []) as [z'|e]
      eqn:Ew; [|discriminate].
    apply writestr_inv in Ew. destruct Ew as [W ->].
    intros H. destruct (IH _ _ _ H) as [paths [Hall ->]].
    exists (p :: paths). split.
    + constructor; [split; assumption|exact Hall].
    + unfold directory_entry. cbn [map]. now rewrite <- app_assoc.
Qed.

Lemma write_folders_returns (todo : list Folder.t) :
  forall zipf paths,
    Forall2 (folder_written depth base_folder folders) todo paths ->
    write_folders depth base_folder folders todo zipf
    = (Ok (zipf ++ map (directory_entry base_folder) paths), []).
Proof.
  induction todo as [|f rest IH]; intros zipf paths Hall;
    inversion Hall as [|? p ? paths' [Hp W] Hrest]; subst.
  - cbn [write_folders map]. unfold ret. now rewrite app_nil_r.
  - rewrite write_folders_cons, Hp, (@writestr_writable zipf _ [] W).
    rewrite (IH _ _ Hrest). unfold directory_entry. cbn [map].
    now rewrite <- app_assoc.
Qed.

(** One folder that does not resolve, or whose directory entry is refused,
    makes the loop raise. *)
Lemma write_folders_raises (todo : list Folder.t) :
  forall zipf f,
    In f todo ->
    (forall p, ~ folder_written depth base_folder folders f p) ->
    exists e,
      write_folders depth base_folder folders todo zipf = (Raise e, []).
Proof.
  induction todo as [|g rest IH]; intros zipf f Hin Hf; [easy|].
  rewrite write_folders_cons.
  destruct (resolve_path depth folders g) as [p|e] eqn:Eg;
    [|eexists; reflexivity].
  destruct (writable (base_folder ++ p ++ slash)) eqn:W.
  - rewrite (@writestr_writable zipf _ [] W).
    destruct Hin as [->|Hin].
    + exfalso. apply (Hf p). split; assumption.
    + exact (IH _ f Hin Hf).
  - destruct (@writestr_unwritable zipf _ [] W) as [e E]. rewrite E.
    eexists; reflexivity.
Qed.

(** The folder loop touches no collaborator. *)
Lemma write_folders_calls (todo : list Folder.t) :
  forall zipf, calls (write_folders depth base_folder folders todo zipf) = [].
Proof.
  induction todo as [|f rest IH]; intros zipf.
  - reflexivity.
  - rewrite write_folders_cons.
    destruct (resolve_path depth folders f) as [p|e]; [|reflexivity].
    destruct (writestr zipf (base_folder ++ p ++ slash) []);
      [apply IH|reflexivity].
Qed.

End Folders.

(** ** The export as a whole *)

Section WholeExport.

Variables (self : FileService) (depth : nat)
          (user_id notebook_id : pystr) (notebook_name : option pystr).

Let base_folder := base_folder_of notebook_name.

Lemma export_outcome :
  outcome (export_notebook_as_zip self depth user_id notebook_id
             notebook_name)
  = match list_by_user_id (repo self) user_id notebook_id with
    | Ok files =>
        match listed_folders self user_id notebook_id with
        | Ok folders =>
            match outcome (write_folders depth base_folder folders
                             folders []) with
            | Ok zipf =>
                Ok (zipf ++ flat_map
                              (archived self depth base_folder folders)
                              files)
            | Raise e => Raise e
            end
        | Raise e => Raise e
        end
    | Raise e => Raise e
    end.
Proof.
  unfold export_notebook_as_zip. rewrite outcome_bind.
  change (outcome (perform (RepoListByUserId user_id notebook_id)
                     (list_by_user_id (repo self) user_id notebook_id)))
    with (list_by_user_id (repo self) user_id notebook_id).
  destruct (list_by_user_id (repo self) user_id notebook_id)
    as [files|e]; [|reflexivity].
  cbv beta zeta. rewrite outcome_bind. unfold listed_folders.
  assert (E : outcome
                match folder_repo self with
                | Some folder_repo =>
                    perform (FolderRepoListByNotebook user_id notebook_id)
                      (list_by_notebook folder_repo user_id notebook_id)
                | None => ret []
                end
              = match folder_repo self with
                | Some folder_repo =>
                    list_by_notebook folder_repo user_id notebook_id
                | None => Ok []
                end)
    by (destruct (folder_repo self); reflexivity).
  rewrite E; clear E.
  destruct (match folder_repo self with
            | Some folder_repo =>
                list_by_notebook folder_repo user_id notebook_id
            | None => Ok []
            end) as [folders|e]; [|reflexivity].
  cbv beta. rewrite outcome_bind. fold base_folder.
  destruct (outcome (write_folders depth base_folder folders folders []))
    as [zipf|e]; [|reflexivity].
  apply write_files_outcome.
Qed.

(** When the export returns, both listings were fetched, every folder
    resolved and had its directory entry written, and the archive is the
    directory entries followed by what the files contributed. *)
Lemma export_inv (z : archive) :
  outcome (export_notebook_as_zip self depth user_id notebook_id
             notebook_name) = Ok z ->
  exists files folders paths,
    list_by_user_id (repo self) user_id notebook_id = Ok files
    /\ listed_folders self user_id notebook_id = Ok folders
    /\ Forall2 (folder_written depth base_folder folders) folders paths
    /\ z = map (directory_entry base_folder) paths
           ++ flat_map (archived self depth base_folder folders) files.
Proof.
  rewrite export_outcome.
  destruct (list_by_user_id (repo self) user_id notebook_id)
    as [files|e]; [|discriminate].
  destruct (listed_folders self user_id notebook_id)
    as [folders|e]; [|discriminate].
  destruct (write_folders depth base_folder folders folders [])
    as [[zipf|e] log] eqn:Ew; unfold outcome at 1; cbn [fst];
    [|discriminate].
  intros Hz; inversion Hz; subst z; clear Hz.
  destruct (write_folders_exact _ _ _ _ _ Ew) as [paths [Hall ->]].
  exists files, folders, paths. repeat split; auto.
Qed.

(** The converse: with both listings fetched, every folder resolving and
    every directory entry accepted, the export returns, whatever happens
    while single files are archived. *)
Lemma export_returns (files : list File.t) (folders : list Folder.t)
    (paths : list pystr) :
  list_by_user_id (repo self) user_id notebook_id = Ok files ->
  listed_folders self user_id notebook_id = Ok folders ->
  Forall2 (folder_written depth base_folder folders) folders paths ->
  outcome (export_notebook_as_zip self depth user_id notebook_id
             notebook_name)
  = Ok (map (directory_entry base_folder) paths
        ++ flat_map (archived self depth base_folder folders) files).
Proof.
  intros Hf Hd Hall. rewrite export_outcome, Hf, Hd.
  now rewrite (write_folders_returns [] Hall).
Qed.

(** One folder that does not resolve, or whose directory entry is refused,
    makes the whole export raise. *)
Lemma export_raises (files : list File.t) (folders : list Folder.t)
    (f : Folder.t) :
  list_by_user_id (repo self) user_id notebook_id = Ok files ->
  listed_folders self user_id notebook_id = Ok folders ->
  In f folders ->
  (forall p, ~ folder_written depth base_folder folders f p) ->
  exists e,
    outcome (export_notebook_as_zip self depth user_id notebook_id
               notebook_name) = Raise e.
Proof.
  intros Hf Hd Hin Hbad. rewrite export_outcome, Hf, Hd.
  destruct (@write_folders_raises depth base_folder folders folders []
              f Hin Hbad) as [e E].
  rewrite E. now exists e.
Qed.

End WholeExport.

Lemma folders_written_resolve (depth : nat) (base_folder : pystr)
    (folders todo : list Folder.t) (paths : list pystr) :
  Forall2 (folder_written depth base_folder folders) todo paths ->
  forall f, In f todo -> exists p, resolve_path depth folders f = Ok p.
Proof.
  induction 1 as [|g p todo paths [Hp _] _ IH]; intros f Hin; [easy|].
  destruct Hin as [<-|Hin]; [now exists p|exact (IH f Hin)].
Qed.

Lemma export_calls (self : FileService) (depth : nat)
    (user_id notebook_id : pystr) (notebook_name : option pystr) :
  Forall (fun e => mutates e = false)
         (calls (export_notebook_as_zip self depth user_id notebook_id
                   notebook_name)).
Proof.
  unfold export_notebook_as_zip.
  rewrite calls_bind. apply Forall_app; split; [repeat constructor|].
  destruct (outcome (perform _ _)) as [files|]; [|constructor].
  rewrite calls_bind. apply Forall_app; split.
  - destruct (folder_repo self); repeat constructor.
  - destruct (outcome _) as [folders|]; [|constructor].
    rewrite calls_bind, write_folders_calls. cbn [app].
    destruct (outcome _); [apply write_files_calls|constructor].
Qed.

(** Calls that do not mutate leave any store as it was. *)
Lemma reads_leave_store (Store : Type) (apply : effect -> Store -> Store)
    (log : list effect) :
  (forall e s, mutates e = false -> apply e s = s) ->
  Forall (fun e => mutates e = false) log ->
  forall s, fold_left (fun s e => apply e s) log s = s.
Proof.
  intros Hread Hlog; induction Hlog as [|e log He _ IH]; intros s; simpl.
  - reflexivity.
  - rewrite Hread by exact He. apply IH.
Qed.

(** ** The path of a file entry *)

(** C6, as stated, fails for a name that holds a NUL character: the archive
    keeps the entry name up to its first NUL, so that a file named [a],
    NUL, [b.md] with no folder reference is entered at [notebook/a], not at
    [<notebook>/<filename>]. *)
Lemma nul_cuts_entry_path :
  File.folder_id nul_file = None
  /\ outcome (export_notebook_as_zip (service_without_storage [nul_file] [])
                5 (py "user") (py "nb") None)
     = Ok [(py "notebook/a", [Byte.x78])]
  /\ py "notebook/a" <> py "notebook" ++ slash ++ File.filename nul_file.
Proof. repeat split. vm_compute. discriminate. Qed.

(** C6 (amended). For every listed File whose content resolves, the export
    writes the entry of the file under [zip_path] cut at its first NUL
    character, where [zip_path] is
    [<notebook>/<resolved folder path>/<filename>] when its folder reference
    matches, by string comparison of the identifiers, a folder of the fetched
    set, and [<notebook>/<filename>] when the referenced folder is not in the
    fetched set or there is no folder reference. The entry is in the returned
    archive whenever [writestr] accepts the name, and its path is [zip_path]
    itself whenever that holds no NUL. *)
Theorem file_entry_in_archive (self : FileService) (depth : nat)
    (user_id notebook_id : pystr) (notebook_name : option pystr)
    (z : archive) (files : list File.t) (folders : list Folder.t)
    (file : File.t) (content : bytes) :
  outcome (export_notebook_as_zip self depth user_id notebook_id
             notebook_name) = Ok z ->
  list_by_user_id (repo self) user_id notebook_id = Ok files ->
  listed_folders self user_id notebook_id = Ok folders ->
  In file files ->
  outcome (resolve_content self file) = Ok content ->
  let notebook :=
    _sanitize_filename (or_default notebook_name (py "notebook")) in
  exists zip_path,
    (forall fid folder,
        File.folder_id file = Some fid -> truthy_id fid = true ->
        find_folder folders fid = Some folder ->
        exists folder_path,
          resolve_path depth folders folder = Ok folder_path
          /\ zip_path = notebook ++ slash ++ folder_path ++ slash
                        ++ File.filename file)
    /\ (forall fid,
          File.folder_id file = Some fid ->
          find_folder folders fid = None ->
          zip_path = notebook ++ slash ++ File.filename file)
    /\ (File.folder_id file = None ->
        zip_path = notebook ++ slash ++ File.filename file)
    /\ archived self depth (base_folder_of notebook_name) folders file
       = (if writable zip_path then [(cut_at_nul zip_path, content)] else [])
    /\ (writable zip_path = true -> In (cut_at_nul zip_path, content) z)
    /\ (~ In 0 zip_path -> cut_at_nul zip_path = zip_path).
Proof.
  intros Hz Hfiles Hfolders Hin Hcontent notebook.
  destruct (export_inv _ _ _ _ _ Hz)
    as [files' [folders' [paths [Hf' [Hfo' [Hall ->]]]]]].
  assert (files' = files) by congruence.
  assert (folders' = folders) by congruence. subst files' folders'.
  destruct (@file_zip_path_returns depth (base_folder_of notebook_name)
              folders file (folders_written_resolve Hall))
    as [zip_path Hzp].
  assert (Harch : archived self depth (base_folder_of notebook_name)
                    folders file
                  = (if writable zip_path
                     then [(cut_at_nul zip_path, content)] else [])).
  { rewrite archived_spec, Hcontent, Hzp. reflexivity. }
  exists zip_path.
  destruct (file_zip_path_cases _ _ _ _ Hzp) as [H1 [H2 H3]].
  unfold base_folder_of in H1, H2, H3. fold notebook in H1, H2, H3.
  repeat split.
  - intros fid folder Hfid Ht Hfind.
    destruct (H1 fid folder Hfid Ht Hfind) as [p [Hp ->]].
    exists p. split; [exact Hp|]. now rewrite <- !app_assoc.
  - intros fid Hfid Hfind. rewrite (H2 fid Hfid Hfind).
    now rewrite <- app_assoc.
  - intros Hfid. rewrite (H3 Hfid). now rewrite <- app_assoc.
  - exact Harch.
  - intros W. apply in_or_app. right. apply in_flat_map.
    exists file. split; [exact Hin|]. rewrite Harch, W. now left.
  - apply cut_at_nul_id.
Qed.

Lemma file_entry_in_archive_witness :
  exists zip_path,
    (forall fid folder,
        File.folder_id b_file = Some fid -> truthy_id fid = true ->
        find_folder sample_folders fid = Some folder ->
        exists folder_path,
          resolve_path 5 sample_folders folder = Ok folder_path
          /\ zip_path = py "MyNotebook" ++ slash ++ folder_path ++ slash
                        ++ File.filename b_file)
    /\ (forall fid,
          File.folder_id b_file = Some fid ->
          find_folder sample_folders fid = None ->
          zip_path = py "MyNotebook" ++ slash ++ File.filename b_file)
    /\ (File.folder_id b_file = None ->
        zip_path = py "MyNotebook" ++ slash ++ File.filename b_file)
    /\ archived (service_with_storage [hello_file; b_file] sample_folders
                   sample_objects) 5
         (base_folder_of (Some (py "MyNotebook"))) sample_folders b_file
       = (if writable zip_path
          then [(cut_at_nul zip_path, [Byte.x01; Byte.x02])] else [])
    /\ (writable zip_path = true ->
        In (cut_at_nul zip_path, [Byte.x01; Byte.x02])
           [(py "MyNotebook/Resources/", []);
            (py "MyNotebook/Resources/Drafts/", []);
            (py "MyNotebook/Resources/Drafts/Old/", []);
            (py "MyNotebook/a.md", hello_bytes);
            (py "MyNotebook/Resources/b.md", [Byte.x01; Byte.x02])])
    /\ (~ In 0 zip_path -> cut_at_nul zip_path = zip_path).
Proof.
  apply (@file_entry_in_archive
           (service_with_storage [hello_file; b_file] sample_folders
              sample_objects)
           5 (py "user") (py "nb") (Some (py "MyNotebook"))
           _ [hello_file; b_file] sample_folders b_file
           [Byte.x01; Byte.x02]).
  - reflexivity.
  - reflexivity.
  - reflexivity.
  - right. now left.
  - reflexivity.
Defined.

(** ** Sample notebooks *)

(** The notebook of the specification's round trip, with one file more whose
    object is missing from storage and one whose text cannot be encoded. *)
Example export_sample_notebook :
  export_notebook_as_zip
    (service_with_storage [hello_file; surrogate_file; b_file; missing_wav]
       [resources] sample_objects)
    5 (py "user") (py "nb") (Some (py "MyNotebook"))
  = (Ok [(py "MyNotebook/Resources/", []);
         (py "MyNotebook/a.md", hello_bytes);
         (py "MyNotebook/Resources/b.md", [Byte.x01; Byte.x02]);
         (py "MyNotebook/take.wav", [])],
     [RepoListByUserId (py "user") (py "nb");
      FolderRepoListByNotebook (py "user") (py "nb");
      S3GetObject (py "k3");
      S3GetObject (py "missing.wav")]).
Proof. vm_compute. reflexivity. Qed.

(** A file whose name does not fit the entry header is skipped after its
    content was fetched, and the next file is archived; a folder whose name
    cannot be encoded makes the export raise. *)
Example export_with_refused_names :
  export_notebook_as_zip
    (service_with_storage [long_named; hello_file] [] sample_objects)
    5 (py "user") (py "nb") None
  = (Ok [(py "notebook/a.md", hello_bytes)],
     [RepoListByUserId (py "user") (py "nb");
      FolderRepoListByNotebook (py "user") (py "nb");
      S3GetObject (py "k4")])
  /\ outcome (export_notebook_as_zip
                (service_with_storage [hello_file]
                   [Folder.mk (UuidId (py "9")) [56448] None] sample_objects)
                5 (py "user") (py "nb") None)
     = Raise UnicodeEncodeError.
Proof. split; vm_compute; reflexivity. Qed.

(** Unlike the export, [delete_file] does write. *)
Example delete_file_mutates :
  calls (delete_file (service_with_storage [b_file] [] sample_objects)
           (py "user") (py "f1"))
  = [RepoGetByIdAndUser (py "f1") (py "user");
     S3DeleteObject (py "k3");
     RepoDelete (py "f1");
     SessionCommit].
Proof. vm_compute. reflexivity. Qed.

(** ** The export and failures *)

(** With both listings fetched, every folder path resolving and every
    directory entry accepted by [writestr], the export returns an archive:
    the directory entries, then one entry for every file that could be
    archived; a file whose archiving raised, be it in the content, in the
    path or in [writestr], contributes nothing and the files after it are
    still archived. *)
Lemma export_skips_failing_files (self : FileService) (depth : nat)
    (user_id notebook_id : pystr) (notebook_name : option pystr)
    (files : list File.t) (folders : list Folder.t) (paths : list pystr) :
  list_by_user_id (repo self) user_id notebook_id = Ok files ->
  listed_folders self user_id notebook_id = Ok folders ->
  Forall2 (folder_written depth (base_folder_of notebook_name) folders)
          folders paths ->
  outcome (export_notebook_as_zip self depth user_id notebook_id
             notebook_name)
  = Ok (map (directory_entry (base_folder_of notebook_name)) paths
        ++ flat_map
             (fun file =>
                match outcome (resolve_content self file),
                      outcome (file_zip_path depth
                                 (base_folder_of notebook_name)
                                 folders file) with
                | Ok file_content, Ok zip_path =>
                    if writable zip_path
                    then [(cut_at_nul zip_path, file_content)] else []
                | _, _ => []
                end) files).
Proof.
  intros Hf Hd Hall.
  rewrite (@export_returns self depth user_id notebook_id notebook_name
             files folders paths Hf Hd Hall).
  f_equal. f_equal. apply flat_map_ext. intros file. apply archived_spec.
Qed.

(** C2. The listings of this notebook are fetched without failure, and still
    the export returns no archive: the folder loop resolves the path of the
    cyclic folder outside any [try], so the [RecursionError] of the resolver
    reaches the caller, whatever the files and the recursion limit. *)
Theorem cyclic_folders_abort_export (files : list File.t) (depth : nat)
    (user_id notebook_id : pystr) (notebook_name : option pystr) :
  list_by_user_id (repo (service_without_storage files cyclic_folders))
    user_id notebook_id = Ok files
  /\ listed_folders (service_without_storage files cyclic_folders)
       user_id notebook_id = Ok cyclic_folders
  /\ outcome (export_notebook_as_zip
                (service_without_storage files cyclic_folders)
                depth user_id notebook_id notebook_name)
     = Raise RecursionError.
Proof.
  repeat split. rewrite export_outcome.
  cbn [service_without_storage repo fixed_repo list_by_user_id].
  unfold listed_folders.
  cbn [service_without_storage folder_repo fixed_folders list_by_notebook].
  unfold cyclic_folders at 2. rewrite write_folders_cons.
  unfold resolve_path.
  rewrite (closed_chain_never_returns cyclic_folders_closed depth
             folder_A []) by (now left).
  reflexivity.
Qed.

(** ** The top-level name *)

Lemma sanitize_adds_underscore_only (x : pystr) (c : N) :
  In c (_sanitize_filename x) -> c = underscore \/ In c x.
Proof.
  intros Hc. unfold _sanitize_filename in Hc.
  apply strip_incl in Hc. rewrite replacements_pointwise in Hc.
  apply in_map_iff in Hc. destruct Hc as [c0 [<- Hin]].
  destruct (in_dec N.eq_dec c0 invalid_chars) as [Hinv|Hval].
  - left. simpl in Hinv.
    repeat (destruct Hinv as [<-|Hinv]; [reflexivity|]). contradiction.
  - right. now rewrite sanitize_char_fixed.
Qed.

(** C8, as stated, fails for a notebook name that holds a NUL character: the
    sanitizer keeps the NUL, the archive cuts every entry name at it, and the
    one entry of this export is named [a], which does not lie under the
    sanitized notebook name. *)
Lemma nul_in_notebook_name :
  _sanitize_filename (py "a" ++ [0] ++ py "b") = py "a" ++ [0] ++ py "b"
  /\ outcome (export_notebook_as_zip
                (service_without_storage [hello_file] [])
                5 (py "user") (py "nb") (Some (py "a" ++ [0] ++ py "b")))
     = Ok [(py "a", hello_bytes)]
  /\ ~ (exists rest, py "a" = (py "a" ++ [0] ++ py "b") ++ slash ++ rest).
Proof.
  repeat split. intros [rest H]. vm_compute in H. discriminate.
Qed.

(** C8 (amended). For a notebook name that holds no NUL character, every
    entry of the archive the export returns lies under one top-level name,
    the sanitized notebook name, which holds no separator; for an absent
    ([None]) or empty notebook name that name is the literal [notebook]. *)
Theorem top_level_name (self : FileService) (depth : nat)
    (user_id notebook_id : pystr) (notebook_name : option pystr)
    (z : archive) :
  outcome (export_notebook_as_zip self depth user_id notebook_id
             notebook_name) = Ok z ->
  (forall s, notebook_name = Some s -> ~ In 0 s) ->
  let top := _sanitize_filename (or_default notebook_name (py "notebook")) in
  Forall (fun entry => exists rest, fst entry = top ++ slash ++ rest) z
  /\ ~ In 47 top
  /\ match notebook_name with
     | None | Some [] => top = py "notebook"
     | Some (c :: s) => top = _sanitize_filename (c :: s)
     end.
Proof.
  intros Hz Hnul top.
  assert (Htop : ~ In 0 (top ++ slash)).
  { intros Hin. apply in_app_or in Hin.
    destruct Hin as [Hin|Hin]; [|vm_compute in Hin; intuition discriminate].
    apply sanitize_adds_underscore_only in Hin.
    destruct Hin as [Hin|Hin]; [discriminate|].
    unfold or_default in Hin.
    destruct notebook_name as [s|];
      [|vm_compute in Hin; intuition discriminate].
    destruct (truthy s); [exact (Hnul s eq_refl Hin)|].
    vm_compute in Hin; intuition discriminate. }
  destruct (export_inv _ _ _ _ _ Hz)
    as [files [folders [paths [_ [_ [_ ->]]]]]].
  repeat split.
  - apply Forall_app; split.
    + apply Forall_map, Forall_forall. intros p _.
      unfold directory_entry, base_folder_of. cbn [fst]. fold top.
      rewrite (@cut_at_nul_app _ _ Htop). rewrite <- app_assoc. eauto.
    + apply Forall_flat_map, Forall_forall. intros file _.
      rewrite archived_spec.
      destruct (outcome (resolve_content self file)) as [c|e];
        [|constructor].
      destruct (outcome (file_zip_path depth (base_folder_of notebook_name)
                           folders file)) as [zp|e] eqn:E; [|constructor].
      unfold entry_written. destruct (writable zp); [|constructor].
      constructor; [|constructor]. cbn [fst].
      destruct (file_zip_path_prefix _ _ _ _ E) as [rest ->].
      unfold base_folder_of. fold top.
      rewrite (@cut_at_nul_app _ _ Htop). rewrite <- app_assoc. eauto.
  - intros Hin. apply (@sanitize_clean _ 47 Hin). vm_compute. tauto.
  - destruct notebook_name as [[|c s]|]; reflexivity.
Qed.

Lemma top_level_name_witness :
  Forall (fun entry => exists rest, fst entry = py "N" ++ slash ++ rest)
         [(py "N/Resources/", []); (py "N/a.md", hello_bytes)].
Proof.
  apply (@top_level_name (service_without_storage [hello_file] [resources])
           5 (py "user") (py "nb") (Some (py "N"))).
  - reflexivity.
  - intros s Hs Hin. injection Hs as <-.
    vm_compute in Hin. destruct Hin as [Hin|[]]. discriminate.
Defined.

(** ** Effects of the export *)

(** C9. The export is read-only against persisted state: none of its calls on
    the database session, the repositories or blob storage is a commit,
    create, update, delete or upload, so that any store on which the
    non-mutating calls have no effect is, after the export, as it was
    before. *)
Theorem export_is_read_only (Store : Type)
    (apply : effect -> Store -> Store) (self : FileService) (depth : nat)
    (user_id notebook_id : pystr) (notebook_name : option pystr) (s : Store) :
  (forall e s', mutates e = false -> apply e s' = s') ->
  let log := calls (export_notebook_as_zip self depth user_id notebook_id
                      notebook_name) in
  Forall (fun e => mutates e = false) log
  /\ fold_left (fun s' e => apply e s') log s = s.
Proof.
  intros Hread log. split.
  - apply export_calls.
  - apply reads_leave_store; [exact Hread|apply export_calls].
Qed.

Lemma export_is_read_only_witness :
  let log :=
    calls (export_notebook_as_zip
             (service_with_storage [hello_file; b_file; missing_wav]
                [resources] sample_objects)
             5 (py "user") (py "nb") (Some (py "MyNotebook"))) in
  Forall (fun e => mutates e = false) log
  /\ fold_left (fun s' e => count_writes e s') log O = O.
Proof.
  apply (@export_is_read_only nat count_writes).
  intros e s' H. unfold count_writes. rewrite H. reflexivity.
Defined.

(** ** No blob storage client *)

(** C10, as stated, fails for a file whose entry [writestr] refuses: with no
    client configured, this file with a storage key and no inline content is
    not in the archive at all. Its name is 65536 letters long, the entry
    header cannot hold that length, the handler of the file loop skips the
    file, and the export returns the empty archive. *)
Lemma unwritable_file_is_skipped :
  s3_client (service_without_storage [long_named] []) = None
  /\ truthy_opt truthy_content (File.content long_named) = false
  /\ truthy_opt truthy (File.unique_filename long_named) = true
  /\ N.of_nat (List.length (File.filename long_named)) = 65536
  /\ outcome (export_notebook_as_zip
                (service_without_storage [long_named] [])
                5 (py "user") (py "nb") None)
     = Ok [].
Proof.
  split; [reflexivity|]. split; [reflexivity|]. split; [reflexivity|].
  split; vm_compute; reflexivity.
Qed.

(** C10 (amended). With no blob storage client configured,
    [get_file_bytes_from_s3] returns the empty byte sequence for every key,
    raises nothing and makes no call; so a listed file with a storage key and
    no non-empty inline content resolves to zero-length content, and in every
    archive the export returns it has an entry of zero length, at the path
    computed for it, whenever [writestr] accepts that path; a file whose
    entry is refused is skipped. *)
Theorem no_client_gives_empty_content (self : FileService) :
  s3_client self = None ->
  (forall key, get_file_bytes_from_s3 self key = (Ok [], []))
  /\ (forall depth user_id notebook_id notebook_name z files file,
        outcome (export_notebook_as_zip self depth user_id notebook_id
                   notebook_name) = Ok z ->
        list_by_user_id (repo self) user_id notebook_id = Ok files ->
        In file files ->
        truthy_opt truthy_content (File.content file) = false ->
        truthy_opt truthy (File.unique_filename file) = true ->
        exists folders zip_path,
          listed_folders self user_id notebook_id = Ok folders
          /\ resolve_content self file = (Ok [], [])
          /\ outcome (file_zip_path depth (base_folder_of notebook_name)
                        folders file) = Ok zip_path
          /\ archived self depth (base_folder_of notebook_name) folders file
             = (if writable zip_path then [(cut_at_nul zip_path, [])]
                else [])
          /\ (writable zip_path = true -> In (cut_at_nul zip_path, []) z)).
Proof.
  intros Hnone. split.
  - intros key. unfold get_file_bytes_from_s3. now rewrite Hnone.
  - intros depth user_id notebook_id notebook_name z files file
           Hz Hfiles Hin Hcontent Hkey.
    destruct (export_inv _ _ _ _ _ Hz)
      as [files' [folders [paths [Hf' [Hfo [Hall ->]]]]]].
    assert (files' = files) by congruence. subst files'.
    destruct (@file_zip_path_returns depth (base_folder_of notebook_name)
                folders file (folders_written_resolve Hall))
      as [zip_path Hzp].
    assert (Hc : resolve_content self file = (Ok [], [])).
    { unfold resolve_content.
      destruct (File.unique_filename file) as [key|]; [|discriminate].
      cbn [truthy_opt] in Hkey. rewrite Hkey.
      unfold get_file_bytes_from_s3. rewrite Hnone.
      destruct (File.content file) as [c|]; [|reflexivity].
      cbn [truthy_opt] in Hcontent. now rewrite Hcontent. }
    assert (Harch : archived self depth (base_folder_of notebook_name)
                      folders file
                    = (if writable zip_path
                       then [(cut_at_nul zip_path, [])] else [])).
    { rewrite archived_spec, Hc, Hzp. reflexivity. }
    exists folders, zip_path. repeat split; auto.
    intros W. apply in_or_app. right. apply in_flat_map.
    exists file. split; [exact Hin|]. rewrite Harch, W. now left.
Qed.

Lemma no_client_gives_empty_content_witness :
  get_file_bytes_from_s3 (service_without_storage [missing_wav] [])
    (py "missing.wav") = (Ok [], [])
  /\ exists folders zip_path,
       listed_folders (service_without_storage [missing_wav] [])
         (py "user") (py "nb") = Ok folders
       /\ resolve_content (service_without_storage [missing_wav] [])
            missing_wav = (Ok [], [])
       /\ outcome (file_zip_path 5 (base_folder_of None) folders missing_wav)
          = Ok zip_path
       /\ archived (service_without_storage [missing_wav] []) 5
            (base_folder_of None) folders missing_wav
          = (if writable zip_path then [(cut_at_nul zip_path, [])] else [])
       /\ (writable zip_path = true ->
           In (cut_at_nul zip_path, [])
              [(py "notebook/take.wav", @nil Byte.byte)]).
Proof.
  pose proof (@no_client_gives_empty_content
                (service_without_storage [missing_wav] []) eq_refl)
    as [Hget Harch].
  split.
  - apply Hget.
  - apply (Harch 5%nat (py "user") (py "nb") None
                 [(py "notebook/take.wav", [])] [missing_wav] missing_wav).
    + reflexivity.
    + reflexivity.
    + now left.
    + reflexivity.
    + reflexivity.
Defined.

(** * Further properties *)

(** ** The resolver on whole chains *)

Section Chains.

Variable all_folders : list Folder.t.

Lemma last_default (l : list Folder.t) :
  forall x d d', last (x :: l) d = last (x :: l) d'.
Proof.
  induction l as [|y l IH]; intros x d d'; [reflexivity|].
  change (last (y :: l) d = last (y :: l) d'). apply IH.
Qed.

Lemma walk_returns (chain : list Folder.t) :
  forall (folder : Folder.t) (path : pystr),
    parent_chain all_folders folder chain ->
    _get_folder_path (S (List.length chain)) folder all_folders path
    = Ok (accumulate (folder :: chain) path).
Proof.
  induction chain as [|parent rest IH]; intros folder path [Hl Hend].
  - cbn [last] in Hend. cbn [List.length _get_folder_path accumulate].
    now rewrite Hend.
  - destruct Hl as [Hp Hl].
    change (S (List.length (parent :: rest)))
      with (S (S (List.length rest))).
    cbn [_get_folder_path]. rewrite Hp.
    change (accumulate (folder :: parent :: rest) path)
      with (accumulate (parent :: rest)
              (if truthy path then Folder.name folder ++ slash ++ path
               else Folder.name folder)).
    apply IH. split; [exact Hl|].
    destruct rest as [|t rest]; [exact Hend|].
    rewrite (last_default rest t parent folder). exact Hend.
Qed.

Lemma join_slash_snoc (parts : list pystr) (a b : pystr) :
  join_slash (parts ++ [a ++ slash ++ b]) = join_slash ((parts ++ [a]) ++ [b]).
Proof.
  induction parts as [|x parts IH]; [reflexivity|].
  cbn [app]. destruct parts as [|y parts]; [reflexivity|].
  cbn [app] in *. cbn [join_slash]. cbn [join_slash] in IH.
  now rewrite IH.
Qed.

Lemma accumulate_onto_path (walk : list Folder.t) :
  forall path,
    truthy path = true ->
    accumulate walk path
    = join_slash (rev (map Folder.name walk) ++ [path]).
Proof.
  induction walk as [|f rest IH]; intros path Hp; cbn [accumulate].
  - reflexivity.
  - rewrite Hp. rewrite IH by (unfold slash; now destruct (Folder.name f)).
    cbn [map rev]. apply join_slash_snoc.
Qed.

Lemma accumulate_from_empty (walk : list Folder.t) :
  accumulate walk [] = join_slash (rev (map Folder.name (drop_unnamed walk))).
Proof.
  induction walk as [|f rest IH]; cbn [accumulate drop_unnamed truthy].
  - reflexivity.
  - destruct (Folder.name f) as [|c s] eqn:E; cbn [truthy].
    + exact IH.
    + rewrite accumulate_onto_path by reflexivity.
      cbn [map rev]. now rewrite E.
Qed.

End Chains.

(** X1. On a parent chain that ends in a root, the resolver returns, with one
    activation per folder of the chain, the names joined by the separator
    from the root down to the folder; the folders at the leaf end that have
    an empty name are left out. *)
Theorem resolver_joins_names (all_folders : list Folder.t)
    (folder : Folder.t) (chain : list Folder.t) :
  parent_chain all_folders folder chain ->
  resolve_path (S (List.length chain)) all_folders folder
  = Ok (join_slash
          (rev (map Folder.name (drop_unnamed (folder :: chain))))).
Proof.
  intros H. unfold resolve_path.
  rewrite (@walk_returns all_folders chain folder [] H).
  now rewrite accumulate_from_empty.
Qed.

Lemma resolver_joins_names_witness :
  resolve_path 3 sample_folders old_drafts = Ok (py "Resources/Drafts/Old").
Proof.
  apply (@resolver_joins_names sample_folders old_drafts [drafts; resources]).
  repeat split.
Defined.

(** ** The resolver returns within one activation per folder, or never *)

Lemma ident_eq_dec (a b : ident) : {a = b} + {a <> b}.
Proof.
  decide equality; apply (list_eq_dec N.eq_dec).
Qed.

Lemma folder_eq_dec (a b : Folder.t) : {a = b} + {a <> b}.
Proof.
  decide equality.
  - decide equality. apply ident_eq_dec.
  - apply (list_eq_dec N.eq_dec).
  - apply ident_eq_dec.
Qed.

Section Pigeonhole.

Variable all_folders : list Folder.t.

Lemma only_recursion_error (depth : nat) :
  forall (folder : Folder.t) (path : pystr) (e : exn),
    _get_folder_path depth folder all_folders path = Raise e ->
    e = RecursionError.
Proof.
  induction depth as [|depth IH]; intros folder path e;
    cbn [_get_folder_path].
  - congruence.
  - destruct (parent_of all_folders folder) as [parent|].
    + apply IH.
    + discriminate.
Qed.

(** A walk that used up [depth] activations went through [depth] parents,
    all of them folders of the set. *)
Lemma exhausted_walk (depth : nat) :
  forall (folder : Folder.t) (path : pystr) (e : exn),
    _get_folder_path depth folder all_folders path = Raise e ->
    exists chain,
      List.length chain = depth
      /\ linked all_folders folder chain
      /\ incl chain all_folders.
Proof.
  induction depth as [|depth IH]; intros folder path e;
    cbn [_get_folder_path].
  - intros _. exists []. repeat split. intros x [].
  - destruct (parent_of all_folders folder) as [parent|] eqn:Hp;
      [|discriminate].
    intros H. destruct (IH _ _ _ H) as [chain [Hlen [Hl Hi]]].
    exists (parent :: chain). repeat split.
    + cbn [List.length]. now rewrite Hlen.
    + exact Hp.
    + exact Hl.
    + intros x [<-|Hx]; [exact (@parent_of_in all_folders _ _ Hp)|exact (Hi x Hx)].
Qed.

Lemma linked_prefix (chain rest : list Folder.t) :
  forall folder,
    linked all_folders folder (chain ++ rest) ->
    linked all_folders folder chain.
Proof.
  induction chain as [|p chain IH]; intros folder; cbn [app linked].
  - trivial.
  - intros [Hp Hl]. split; [exact Hp|exact (IH p Hl)].
Qed.

(** In a linked walk every folder but the last has the next one as its
    parent. *)
Lemma linked_next (chain : list Folder.t) (a : Folder.t) :
  forall folder x,
    linked all_folders folder (chain ++ [a]) ->
    In x (folder :: chain) ->
    exists p, parent_of all_folders x = Some p /\ In p (chain ++ [a]).
Proof.
  induction chain as [|q chain IH]; intros folder x; cbn [app linked].
  - intros [Hp _] [<-|[]]. exists a. split; [exact Hp|now left].
  - intros [Hp Hl] [<-|Hx].
    + exists q. split; [exact Hp|now left].
    + destruct (IH q x Hl Hx) as [p [Hxp Hin]].
      exists p. split; [exact Hxp|now right].
Qed.

(** A walk that comes back to a folder it has visited never ends. *)
Lemma revisit_never_returns (folder a : Folder.t) (chain : list Folder.t) :
  linked all_folders folder (chain ++ [a]) ->
  In a (folder :: chain) ->
  forall depth path,
    _get_folder_path depth folder all_folders path = Raise RecursionError.
Proof.
  intros Hl Ha depth path.
  apply (@closed_chain_never_returns all_folders (folder :: chain)).
  - intros x Hx. destruct (@linked_next chain a folder x Hl Hx)
      as [p [Hp Hin]].
    exists p. split; [exact Hp|].
    apply in_app_or in Hin. destruct Hin as [Hin|[<-|[]]].
    + now right.
    + exact Ha.
  - now left.
Qed.

End Pigeonhole.

(** X2. The resolver needs at most one activation per folder of the set, and
    one more: either it returns a path within [len(all_folders) + 1]
    activations, or the parent chain runs into a cycle and it ends in
    [RecursionError] whatever the recursion limit. *)
Theorem resolver_returns_or_cycles (all_folders : list Folder.t)
    (folder : Folder.t) :
  (exists p,
      resolve_path (S (List.length all_folders)) all_folders folder = Ok p)
  \/ (forall depth,
        resolve_path depth all_folders folder = Raise RecursionError).
Proof.
  unfold resolve_path.
  destruct (_get_folder_path (S (List.length all_folders)) folder
              all_folders []) as [p|e] eqn:E.
  - left. now exists p.
  - right. intros depth.
    destruct (@exhausted_walk all_folders _ _ _ _ E)
      as [chain [Hlen [Hl Hi]]].
    destruct (NoDup_dec folder_eq_dec chain) as [Hnd|Hdup].
    + pose proof (NoDup_incl_length Hnd Hi) as Hle. rewrite Hlen in Hle.
      exfalso. apply (Nat.nle_succ_diag_l _ Hle).
    + assert (Hdec : forall x y : Folder.t, Decidable.decidable (x = y)).
      { intros x y. destruct (folder_eq_dec x y); [left|right]; assumption. }
      destruct (ListDec.not_NoDup Hdec Hdup) as [a [l1 [l2 [l3 Hc]]]].
      rewrite Hc in Hl.
      replace (l1 ++ a :: l2 ++ a :: l3)
        with (((l1 ++ a :: l2) ++ [a]) ++ l3) in Hl
        by (rewrite <- !app_assoc; reflexivity).
      apply linked_prefix in Hl.
      apply (@revisit_never_returns all_folders folder a (l1 ++ a :: l2) Hl).
      right. apply in_or_app. right. now left.
Qed.

(** ** The archive, entry by entry *)



(** X3. In an archive the export returns, the directory entries come first:
    one per folder of the listing, in listing order and whether or not any
    file lies in it, with empty content and named
    [<notebook>/<folder path>/] cut at its first NUL character, a name
    [writestr] has accepted; the entries of the files follow, in the order of
    the file listing, and a file adds an entry, its content under its path
    cut at the first NUL character, exactly when its content resolves, its
    path resolves and [writestr] accepts the path. *)
Theorem export_directory_entries (self : FileService) (depth : nat)
    (user_id notebook_id : pystr) (notebook_name : option pystr)
    (z : archive) :
  outcome (export_notebook_as_zip self depth user_id notebook_id
             notebook_name) = Ok z ->
  exists files folders paths,
    list_by_user_id (repo self) user_id notebook_id = Ok files
    /\ listed_folders self user_id notebook_id = Ok folders
    /\ Forall2 (fun f p =>
                  resolve_path depth folders f = Ok p
                  /\ writable (base_folder_of notebook_name ++ p ++ slash)
                     = true) folders paths
    /\ z = map (fun p =>
                  (cut_at_nul (base_folder_of notebook_name ++ p ++ slash),
                   [])) paths
           ++ flat_map
                (fun file =>
                   match outcome (resolve_content self file),
                         outcome (file_zip_path depth
                                    (base_folder_of notebook_name)
                                    folders file) with
                   | Ok file_content, Ok zip_path =>
                       if writable zip_path
                       then [(cut_at_nul zip_path, file_content)] else []
                   | _, _ => []
                   end) files.
Proof.
  intros Hz.
  destruct (export_inv _ _ _ _ _ Hz)
    as [files [folders [paths [Hf [Hd [Hall ->]]]]]].
  exists files, folders, paths. repeat split; auto.
  f_equal. apply flat_map_ext. intros file. apply archived_spec.
Qed.

Lemma export_directory_entries_witness :
  exists files folders paths,
    list_by_user_id
      (repo (service_without_storage [hello_file] [resources; drafts]))
      (py "user") (py "nb") = Ok files
    /\ listed_folders (service_without_storage [hello_file]
                         [resources; drafts]) (py "user") (py "nb")
       = Ok folders
    /\ Forall2 (fun f p =>
                  resolve_path 5 folders f = Ok p
                  /\ writable (base_folder_of None ++ p ++ slash) = true)
               folders paths
    /\ [(py "notebook/Resources/", []);
        (py "notebook/Resources/Drafts/", []);
        (py "notebook/a.md", hello_bytes)]
       = map (fun p => (cut_at_nul (base_folder_of None ++ p ++ slash), []))
             paths
           ++ flat_map
                (fun file =>
                   match outcome (resolve_content
                                    (service_without_storage [hello_file]
                                       [resources; drafts]) file),
                         outcome (file_zip_path 5 (base_folder_of None)
                                    folders file) with
                   | Ok file_content, Ok zip_path =>
                       if writable zip_path
                       then [(cut_at_nul zip_path, file_content)] else []
                   | _, _ => []
                   end) files.
Proof.
  apply (@export_directory_entries
           (service_without_storage [hello_file] [resources; drafts])
           5 (py "user") (py "nb") None).
  reflexivity.
Defined.





(** ** The calls of the export *)

Lemma resolve_content_reads (self : FileService) (file : File.t) :
  calls (resolve_content self file) = storage_reads self file.
Proof.
  assert (Hs : calls match File.unique_filename file with
                     | Some key =>
                         if truthy key then
                           try_except (get_file_bytes_from_s3 self key)
                                      (fun _ => ret [])
                         else ret []
                     | None => ret []
                     end
               = match s3_client self with
                 | None => []
                 | Some _ =>
                     match File.unique_filename file with
                     | Some key =>
                         if truthy key then [S3GetObject key] else []
                     | None => []
                     end
                 end).
  { destruct (File.unique_filename file) as [key|];
      [|now destruct (s3_client self)].
    destruct (truthy key); [|now destruct (s3_client self)].
    rewrite calls_try_except, get_file_bytes_never_raises,
      get_file_bytes_calls, app_nil_r.
    now destruct (s3_client self). }
  unfold resolve_content, storage_reads.
  destruct (File.content file) as [c|]; cbn [truthy_opt]; [|exact Hs].
  destruct (truthy_content c); [|exact Hs].
  destruct c; now destruct (s3_client self).
Qed.

Lemma write_files_reads (self : FileService) (depth : nat)
    (base_folder : pystr) (folders : list Folder.t) (files : list File.t) :
  forall zipf,
    calls (write_files self depth base_folder folders files zipf)
    = flat_map (storage_reads self) files.
Proof.
  intros zipf. rewrite write_files_log. apply flat_map_ext.
  intros file. apply resolve_content_reads.
Qed.

(** X6. The calls of a returned export are, in order: the file listing, the
    folder listing when a folder repository is configured, and then, for the
    files in listing order, one blob read for each file that has no
    non-empty inline content and has a storage key, provided a client is
    configured. A file with inline content never causes a blob read. *)
Theorem export_call_log (self : FileService) (depth : nat)
    (user_id notebook_id : pystr) (notebook_name : option pystr)
    (z : archive) (files : list File.t) :
  outcome (export_notebook_as_zip self depth user_id notebook_id
             notebook_name) = Ok z ->
  list_by_user_id (repo self) user_id notebook_id = Ok files ->
  calls (export_notebook_as_zip self depth user_id notebook_id
           notebook_name)
  = RepoListByUserId user_id notebook_id
    :: match folder_repo self with
       | Some _ => [FolderRepoListByNotebook user_id notebook_id]
       | None => []
       end
    ++ flat_map (storage_reads self) files.
Proof.
  intros Hz Hfiles.
  rewrite export_outcome, Hfiles in Hz.
  unfold export_notebook_as_zip. rewrite calls_bind.
  change (calls (perform (RepoListByUserId user_id notebook_id)
                   (list_by_user_id (repo self) user_id notebook_id)))
    with [RepoListByUserId user_id notebook_id].
  change (outcome (perform (RepoListByUserId user_id notebook_id)
                     (list_by_user_id (repo self) user_id notebook_id)))
    with (list_by_user_id (repo self) user_id notebook_id).
  rewrite Hfiles. cbn [app]. f_equal.
  rewrite calls_bind. unfold listed_folders in Hz.
  destruct (folder_repo self) as [fr|].
  - change (calls (perform (FolderRepoListByNotebook user_id notebook_id)
                     (list_by_notebook fr user_id notebook_id)))
      with [FolderRepoListByNotebook user_id notebook_id].
    change (outcome (perform (FolderRepoListByNotebook user_id notebook_id)
                       (list_by_notebook fr user_id notebook_id)))
      with (list_by_notebook fr user_id notebook_id).
    destruct (list_by_notebook fr user_id notebook_id) as [folders|e];
      [|discriminate].
    f_equal. rewrite calls_bind, write_folders_calls. cbn [app].
    destruct (outcome (write_folders depth (base_folder_of notebook_name)
                         folders folders [])); [|discriminate].
    apply write_files_reads.
  - change (calls (ret (A:=list Folder.t) [])) with (@nil effect).
    change (outcome (ret (A:=list Folder.t) [])) with (Ok (@nil Folder.t)).
    cbn [app]. rewrite calls_bind, write_folders_calls. cbn [app].
    cbn [write_folders]. change (outcome (ret (A:=archive) []))
      with (Ok (@nil (pystr * bytes))).
    apply write_files_reads.
Qed.

Lemma export_call_log_witness :
  calls (export_notebook_as_zip
           (service_with_storage [hello_file; b_file; missing_wav]
              [resources] sample_objects)
           5 (py "user") (py "nb") None)
  = [RepoListByUserId (py "user") (py "nb");
     FolderRepoListByNotebook (py "user") (py "nb");
     S3GetObject (py "k3");
     S3GetObject (py "missing.wav")].
Proof.
  apply (@export_call_log
           (service_with_storage [hello_file; b_file; missing_wav]
              [resources] sample_objects)
           5 (py "user") (py "nb") None
           [(py "notebook/Resources/", []);
            (py "notebook/a.md", hello_bytes);
            (py "notebook/Resources/b.md", [Byte.x01; Byte.x02]);
            (py "notebook/take.wav", [])]
           [hello_file; b_file; missing_wav]);
    reflexivity.
Defined.

(** ** More on the sanitizer *)

Lemma lstrip_split (s : pystr) :
  exists l, s = l ++ lstrip s /\ Forall (fun c => isspace c = true) l.
Proof.
  induction s as [|c s [l [Hs Hl]]]; cbn [lstrip].
  - exists []. split; [reflexivity|constructor].
  - destruct (isspace c) eqn:E.
    + exists (c :: l). split; [cbn [app]; now rewrite <- Hs|].
      constructor; assumption.
    + exists []. split; [reflexivity|constructor].
Qed.

Lemma rstrip_split (s : pystr) :
  exists r, s = rstrip s ++ r /\ Forall (fun c => isspace c = true) r.
Proof.
  induction s as [|c s [r [Hs Hr]]]; cbn [rstrip].
  - exists []. split; [reflexivity|constructor].
  - destruct (rstrip s) as [|d t] eqn:E.
    + destruct (isspace c) eqn:Ec.
      * exists (c :: r). cbn [app] in *. split; [now rewrite <- Hs|].
        constructor; assumption.
      * exists r. cbn [app] in *. split; [now rewrite <- Hs|assumption].
    + exists r. split; [|assumption]. cbn [app] in *. now rewrite <- Hs.
Qed.

Lemma sanitize_char_spec (c : N) :
  sanitize_char invalid_chars c
  = if existsb (N.eqb c) invalid_chars then underscore else c.
Proof.
  destruct (in_dec N.eq_dec c invalid_chars) as [Hin|Hout].
  - simpl in Hin.
    repeat (destruct Hin as [<-|Hin]; [reflexivity|]). contradiction.
  - rewrite sanitize_char_fixed by exact Hout.
    destruct (existsb (N.eqb c) invalid_chars) eqn:E; [|reflexivity].
    apply existsb_exists in E. destruct E as [d [Hd Heq]].
    apply N.eqb_eq in Heq. subst d. contradiction.
Qed.

Lemma whitespace_is_valid (c : N) :
  isspace c = true -> ~ In c invalid_chars.
Proof.
  intros Hs Hin. simpl in Hin.
  repeat (destruct Hin as [<-|Hin]; [vm_compute in Hs; discriminate|]).
  contradiction.
Qed.

(** X7. The names the sanitizer leaves as they are are exactly those that
    hold none of the nine characters and that [strip] leaves unchanged (no
    whitespace at either end). *)
Theorem sanitize_fixed_points (x : pystr) :
  _sanitize_filename x = x
  <-> (Forall (fun c => ~ In c invalid_chars) x /\ strip x = x).
Proof.
  split.
  - intros Hx. split.
    + apply Forall_forall. intros c Hc. rewrite <- Hx in Hc.
      exact (@sanitize_clean x c Hc).
    + rewrite <- Hx at 1. unfold _sanitize_filename.
      rewrite strip_idem. exact Hx.
  - intros [Hclean Hstrip]. unfold _sanitize_filename.
    rewrite replacements_pointwise, map_fixed; [exact Hstrip|].
    intros c Hc. apply sanitize_char_fixed.
    exact (proj1 (Forall_forall _ _) Hclean c Hc).
Qed.

Lemma sanitize_fixed_points_witness :
  _sanitize_filename (py "My Notebook") = py "My Notebook".
Proof.
  apply (proj2 (sanitize_fixed_points (py "My Notebook"))).
  split; [|reflexivity].
  repeat constructor; vm_compute; intuition discriminate.
Defined.

(** X8. The sanitizer touches a name in two ways only: each of the nine
    characters becomes an underscore, in place, and whitespace is cut off at
    the two ends. Nothing is reordered, inserted or removed inside. *)
Theorem sanitize_is_trimmed_replacement (x : pystr) :
  exists l r,
    map (fun c => if existsb (N.eqb c) invalid_chars then underscore else c) x
    = l ++ _sanitize_filename x ++ r
    /\ Forall (fun c => isspace c = true) l
    /\ Forall (fun c => isspace c = true) r.
Proof.
  unfold _sanitize_filename. rewrite replacements_pointwise.
  rewrite (map_ext _ _ sanitize_char_spec).
  set (s := map _ x). unfold strip.
  destruct (lstrip_split s) as [l [Hl Hwl]].
  destruct (rstrip_split (lstrip s)) as [r [Hr Hwr]].
  exists l, r. repeat split; auto.
  rewrite <- Hr. exact Hl.
Qed.

(** X9. A notebook name made of whitespace only is not replaced by the
    default: its sanitized form is the empty string, so the base folder of
    the archive is the bare separator. *)
Theorem whitespace_name_gives_bare_separator (notebook_name : pystr) :
  truthy notebook_name = true ->
  Forall (fun c => isspace c = true) notebook_name ->
  base_folder_of (Some notebook_name) = slash.
Proof.
  intros Ht Hws. unfold base_folder_of, or_default. rewrite Ht.
  unfold _sanitize_filename. rewrite replacements_pointwise.
  rewrite map_fixed.
  - unfold strip.
    assert (Hl : lstrip notebook_name = []).
    { clear Ht. induction Hws as [|c s Hc _ IH]; cbn [lstrip]; auto.
      now rewrite Hc. }
    now rewrite Hl.
  - intros c Hc. apply sanitize_char_fixed, whitespace_is_valid.
    exact (proj1 (Forall_forall _ _) Hws c Hc).
Qed.

Lemma whitespace_name_gives_bare_separator_witness :
  base_folder_of (Some (py "   ")) = slash.
Proof.
  apply whitespace_name_gives_bare_separator.
  - reflexivity.
  - repeat constructor.
Defined.

(** ** [delete_file], [update_file] and [create_file_record] *)

Section DeleteFile.

Variables (session : Session) (self : FileService) (user_id file_id : pystr).

(** The storage step of [delete_file] never raises, and it calls nothing but
    the delete on blob storage. *)
Lemma storage_step (file_record : File.t) :
  exists log,
    match s3_client self, File.unique_filename file_record with
    | Some client, Some key =>
        if truthy key then
          try_except
            (perform (S3DeleteObject key) (delete_object client key))
            (fun _ => ret tt)
        else ret tt
    | _, _ => ret tt
    end = (Ok tt, log)
    /\ ~ In SessionCommit log.
Proof.
  destruct (s3_client self) as [client|];
    [|exists []; split; [reflexivity|tauto]].
  destruct (File.unique_filename file_record) as [key|];
    [|exists []; split; [reflexivity|tauto]].
  destruct (truthy key); [|exists []; split; [reflexivity|tauto]].
  exists [S3DeleteObject key]. unfold try_except, perform, ret.
  destruct (delete_object client key) as [[]|e]; split;
    try reflexivity; intros [H|[]]; discriminate.
Qed.

Lemma delete_file_found (file_record : File.t) :
  get_by_id_and_user (repo self) file_id user_id = Ok (Some file_record) ->
  exists log,
    ~ In SessionCommit log
    /\ Crud.delete_file session self user_id file_id
       = (match delete (repo self) file_id with
          | Ok true =>
              match commit session with
              | Ok _ => Ok true
              | Raise e => Raise e
              end
          | other => other
          end,
          RepoGetByIdAndUser file_id user_id
          :: log
          ++ RepoDelete file_id
          :: match delete (repo self) file_id with
             | Ok true => [SessionCommit]
             | _ => []
             end).
Proof.
  intros Hget. unfold Crud.delete_file. unfold perform at 1. rewrite Hget.
  unfold bind at 1. cbv iota beta.
  destruct (storage_step file_record) as [log [E Hno]].
  exists log. split; [exact Hno|].
  rewrite E. unfold bind at 1. cbv iota beta.
  unfold perform, bind, ret.
  destruct (delete (repo self) file_id) as [[|]|e]; cbn [app];
    rewrite ?app_nil_r; try reflexivity.
  destruct (commit session) as [[]|e]; cbn [app]; reflexivity.
Qed.

Lemma delete_file_not_found :
  (forall file_record,
      get_by_id_and_user (repo self) file_id user_id
      <> Ok (Some file_record)) ->
  calls (Crud.delete_file session self user_id file_id)
  = [RepoGetByIdAndUser file_id user_id]
  /\ outcome (Crud.delete_file session self user_id file_id) <> Ok true.
Proof.
  intros Hget. unfold Crud.delete_file, perform, bind, ret, calls, outcome.
  destruct (get_by_id_and_user (repo self) file_id user_id)
    as [[file_record|]|e]; cbn [fst snd].
  - exfalso. now apply (Hget file_record).
  - split; [reflexivity|discriminate].
  - split; [reflexivity|discriminate].
Qed.

End DeleteFile.

(** X10. [delete_file] writes only to a record it has found for the user: a
    delete on blob storage, a delete on the database or a commit is made only
    after [get_by_id_and_user] returned the record for this file id and this
    user. *)
Theorem delete_file_writes_only_found (session : Session)
    (self : FileService) (user_id file_id : pystr) (e : effect) :
  In e (calls (Crud.delete_file session self user_id file_id)) ->
  mutates e = true ->
  exists file_record,
    get_by_id_and_user (repo self) file_id user_id = Ok (Some file_record).
Proof.
  intros Hin Hm.
  destruct (get_by_id_and_user (repo self) file_id user_id)
    as [[file_record|]|err] eqn:Hget.
  - now exists file_record.
  - destruct (@delete_file_not_found session self user_id file_id) as [Hc _].
    + rewrite Hget. discriminate.
    + rewrite Hc in Hin. destruct Hin as [<-|[]]. discriminate.
  - destruct (@delete_file_not_found session self user_id file_id) as [Hc _].
    + rewrite Hget. discriminate.
    + rewrite Hc in Hin. destruct Hin as [<-|[]]. discriminate.
Qed.

Lemma delete_file_writes_only_found_witness :
  exists file_record,
    get_by_id_and_user
      (repo (service_with_storage [b_file] [] sample_objects))
      (py "f1") (py "user") = Ok (Some file_record).
Proof.
  apply (@delete_file_writes_only_found always_commits
           (service_with_storage [b_file] [] sample_objects)
           (py "user") (py "f1") (RepoDelete (py "f1"))).
  - vm_compute. tauto.
  - reflexivity.
Defined.



(** X12. [delete_file] returns [True] exactly when it has committed: the
    result is [True] if and only if the commit was called and went
    through. *)
Theorem delete_file_true_iff_committed (session : Session)
    (self : FileService) (user_id file_id : pystr) :
  outcome (Crud.delete_file session self user_id file_id) = Ok true
  <-> (In SessionCommit
          (calls (Crud.delete_file session self user_id file_id))
       /\ commit session = Ok tt).
Proof.
  destruct (get_by_id_and_user (repo self) file_id user_id)
    as [[file_record|]|err] eqn:Hget.
  - destruct (@delete_file_found session self user_id file_id file_record
                Hget) as [log [Hno ->]].
    unfold outcome, calls; cbn [fst snd].
    destruct (delete (repo self) file_id) as [[|]|e].
    + destruct (commit session) as [[]|e].
      * split; [intros _|reflexivity]. split; [|reflexivity].
        right. apply in_or_app. right. right. now left.
      * split; [discriminate|]. intros [_ H]. discriminate.
    + split; [discriminate|]. intros [[H|H] _]; [discriminate|].
      apply in_app_or in H. destruct H as [H|[H|[]]];
        [contradiction|discriminate].
    + split; [discriminate|]. intros [[H|H] _]; [discriminate|].
      apply in_app_or in H. destruct H as [H|[H|[]]];
        [contradiction|discriminate].
  - destruct (@delete_file_not_found session self user_id file_id)
      as [Hc Ho]; [rewrite Hget; discriminate|].
    rewrite Hc. split; [intros H; contradiction|].
    intros [[H|[]] _]. discriminate.
  - destruct (@delete_file_not_found session self user_id file_id)
      as [Hc Ho]; [rewrite Hget; discriminate|].
    rewrite Hc. split; [intros H; contradiction|].
    intros [[H|[]] _]. discriminate.
Qed.

Lemma delete_file_true_iff_committed_witness :
  outcome (Crud.delete_file always_commits
             (service_with_storage [b_file] [] sample_objects)
             (py "user") (py "f1")) = Ok true.
Proof.
  apply (proj2 (@delete_file_true_iff_committed always_commits
                  (service_with_storage [b_file] [] sample_objects)
                  (py "user") (py "f1"))).
  split; [vm_compute; tauto|reflexivity].
Defined.

Section UpdateFile.

Variables (session : Session) (update : pystr -> py_result (option File.t))
          (self : FileService) (user_id file_id : pystr).

Lemma update_file_found (old : File.t) :
  get_by_id_and_user (repo self) file_id user_id = Ok (Some old) ->
  Crud.update_file session update self user_id file_id
  = match update file_id with
    | Ok (Some r) =>
        match commit session with
        | Ok _ =>
            match refresh session with
            | Ok _ =>
                (Ok (Some r),
                 [RepoGetByIdAndUser file_id user_id; RepoUpdate file_id;
                  SessionCommit; SessionRefresh])
            | Raise e =>
                (Raise e,
                 [RepoGetByIdAndUser file_id user_id; RepoUpdate file_id;
                  SessionCommit; SessionRefresh])
            end
        | Raise e =>
            (Raise e,
             [RepoGetByIdAndUser file_id user_id; RepoUpdate file_id;
              SessionCommit])
        end
    | Ok None =>
        (Ok None, [RepoGetByIdAndUser file_id user_id; RepoUpdate file_id])
    | Raise e =>
        (Raise e, [RepoGetByIdAndUser file_id user_id; RepoUpdate file_id])
    end.
Proof.
  intros Hget. unfold Crud.update_file, perform, bind, ret. rewrite Hget.
  destruct (update file_id) as [[r|]|e]; try reflexivity.
  destruct (commit session) as [[]|e]; try reflexivity.
  destruct (refresh session) as [[]|e]; reflexivity.
Qed.

Lemma update_file_not_found :
  (forall old,
      get_by_id_and_user (repo self) file_id user_id <> Ok (Some old)) ->
  calls (Crud.update_file session update self user_id file_id)
  = [RepoGetByIdAndUser file_id user_id]
  /\ forall r,
       outcome (Crud.update_file session update self user_id file_id)
       <> Ok (Some r).
Proof.
  intros Hget. unfold Crud.update_file, perform, bind, ret, calls, outcome.
  destruct (get_by_id_and_user (repo self) file_id user_id)
    as [[old|]|e]; cbn [fst snd].
  - exfalso. now apply (Hget old).
  - split; [reflexivity|discriminate].
  - split; [reflexivity|discriminate].
Qed.

End UpdateFile.

(** X13. [update_file] writes only to a record it has found for the user:
    the repository update, the commit and the refresh happen only after
    [get_by_id_and_user] returned the record for this file id and this user;
    otherwise the one lookup is its only call. *)
Theorem update_file_writes_only_found (session : Session)
    (update : pystr -> py_result (option File.t)) (self : FileService)
    (user_id file_id : pystr) :
  (exists old,
      get_by_id_and_user (repo self) file_id user_id = Ok (Some old))
  \/ calls (Crud.update_file session update self user_id file_id)
     = [RepoGetByIdAndUser file_id user_id].
Proof.
  destruct (get_by_id_and_user (repo self) file_id user_id)
    as [[old|]|err] eqn:Hget.
  - left. now exists old.
  - right. apply update_file_not_found. rewrite Hget. discriminate.
  - right. apply update_file_not_found. rewrite Hget. discriminate.
Qed.

(** X14. [update_file] returns a record exactly when the record was found for
    the user, the repository update returned that record, and both the commit
    and the refresh went through. *)
Theorem update_file_returns_committed (session : Session)
    (update : pystr -> py_result (option File.t)) (self : FileService)
    (user_id file_id : pystr) (r : File.t) :
  outcome (Crud.update_file session update self user_id file_id)
  = Ok (Some r)
  <-> ((exists old,
           get_by_id_and_user (repo self) file_id user_id = Ok (Some old))
       /\ update file_id = Ok (Some r)
       /\ commit session = Ok tt
       /\ refresh session = Ok tt).
Proof.
  destruct (get_by_id_and_user (repo self) file_id user_id)
    as [[old|]|err] eqn:Hget.
  - rewrite (@update_file_found session update self user_id file_id old Hget).
    destruct (update file_id) as [[r'|]|e];
      [|split; [discriminate|intros [_ [H _]]; discriminate]
       |split; [discriminate|intros [_ [H _]]; discriminate]].
    destruct (commit session) as [[]|e];
      [|split; [discriminate|intros [_ [_ [H _]]]; discriminate]].
    destruct (refresh session) as [[]|e];
      [|split; [discriminate|intros [_ [_ [_ H]]]; discriminate]].
    unfold outcome; cbn [fst]. split.
    + intros H. inversion H; subst. repeat split. now exists old.
    + intros [_ [H _]]. now inversion H.
  - destruct (@update_file_not_found session update self user_id file_id)
      as [_ Ho]; [rewrite Hget; discriminate|].
    split; [intros H; now apply Ho in H|].
    intros [[old H] _]. discriminate.
  - destruct (@update_file_not_found session update self user_id file_id)
      as [_ Ho]; [rewrite Hget; discriminate|].
    split; [intros H; now apply Ho in H|].
    intros [[old H] _]. discriminate.
Qed.

Lemma update_file_returns_committed_witness :
  outcome (Crud.update_file always_commits (fun _ => Ok (Some hello_file))
             (service_without_storage [b_file] []) (py "user") (py "f1"))
  = Ok (Some hello_file).
Proof.
  apply (proj2 (@update_file_returns_committed always_commits
                  (fun _ => Ok (Some hello_file))
                  (service_without_storage [b_file] [])
                  (py "user") (py "f1") hello_file)).
  repeat split. now exists b_file.
Defined.

(** X15. [create_file_record] returns the created record exactly when the
    repository created it and both the commit and the refresh went through;
    and it commits exactly when the repository created the record. *)
Theorem create_file_record_commits_created (session : Session)
    (create : py_result File.t) (filename : pystr) (r : File.t) :
  (outcome (Crud.create_file_record session create filename) = Ok r
   <-> (create = Ok r /\ commit session = Ok tt /\ refresh session = Ok tt))
  /\ (In SessionCommit (calls (Crud.create_file_record session create
                                 filename))
      <-> exists created, create = Ok created).
Proof.
  unfold Crud.create_file_record, perform, bind, ret, outcome, calls.
  destruct create as [created|e]; cbn [fst snd].
  - destruct (commit session) as [[]|e]; cbn [fst snd app].
    + destruct (refresh session) as [[]|e]; cbn [fst snd app].
      * split; split.
        -- intros H; inversion H; auto.
        -- intros [H _]; exact H.
        -- intros _. now exists created.
        -- intros _. right. now left.
      * split; split.
        -- discriminate.
        -- intros [_ [_ H]]; discriminate.
        -- intros _. now exists created.
        -- intros _. right. now left.
    + split; split.
      * discriminate.
      * intros [_ [H _]]; discriminate.
      * intros _. now exists created.
      * intros _. right. now left.
  - split; split.
    + discriminate.
    + intros [H _]; discriminate.
    + intros [H|[]]; discriminate.
    + intros [created H]; discriminate.
Qed.

Lemma create_file_record_commits_created_witness :
  outcome (Crud.create_file_record always_commits (Ok hello_file)
             (py "a.md")) = Ok hello_file.
Proof.
  apply (proj2 (proj1 (@create_file_record_commits_created always_commits
                         (Ok hello_file) (py "a.md") hello_file))).
  repeat split.
Defined.

(** ** [upload_to_s3] *)

Section Upload.

Variables (endpoint bucket_name : pystr) (bucket : S3Bucket)
          (self : FileService) (seek : option (py_result unit))
          (object_name content_type : pystr).

Lemma bucket_step :
  try_except (perform S3HeadBucket (head_bucket bucket))
    (fun _ =>
       try_except (perform S3CreateBucket (create_bucket bucket))
         (fun _ => ret tt))
  = (Ok tt,
     S3HeadBucket :: match head_bucket bucket with
                     | Ok _ => []
                     | Raise _ => [S3CreateBucket]
                     end).
Proof.
  unfold try_except, perform, ret.
  destruct (head_bucket bucket) as [[]|e]; [reflexivity|].
  destruct (create_bucket bucket) as [[]|e']; reflexivity.
Qed.

End Upload.

(** X16. [upload_to_s3] creates the bucket only when the check for it fails:
    [create_bucket] is called if and only if a client is configured and
    [head_bucket] raised. *)
Theorem upload_creates_bucket_iff_missing (endpoint bucket_name : pystr)
    (bucket : S3Bucket) (self : FileService)
    (seek : option (py_result unit)) (object_name content_type : pystr) :
  In S3CreateBucket
     (calls (Crud.upload_to_s3 endpoint bucket_name bucket self seek
               object_name content_type))
  <-> (s3_client self <> None /\ exists e, head_bucket bucket = Raise e).
Proof.
  unfold Crud.upload_to_s3.
  destruct (s3_client self) as [client|].
  - rewrite calls_bind, bucket_step.
    unfold calls at 1, outcome at 1; cbn [fst snd].
    rewrite calls_bind.
    assert (Hrest :
              ~ In S3CreateBucket
                  (calls match seek with
                         | Some answer => lift answer
                         | None => ret tt
                         end
                   ++ match outcome match seek with
                                    | Some answer => lift answer
                                    | None => ret tt
                                    end with
                      | Ok _ =>
                          calls (_ <- perform (S3UploadFileobj object_name)
                                        (upload_fileobj bucket object_name
                                           content_type) ;;
                                 ret (endpoint ++ slash ++ bucket_name
                                      ++ slash ++ object_name))
                      | Raise _ => []
                      end)).
    { destruct seek as [[[]|e]|]; unfold lift, ret, perform, bind, calls,
        outcome; cbn [fst snd app];
        try (destruct (upload_fileobj bucket object_name content_type)
              as [[]|e']; cbn [snd app]);
        intros H; repeat (destruct H as [H|H]; [discriminate|]);
        try contradiction. }
    split.
    + intros [H|H]; [discriminate|].
      apply in_app_or in H. destruct H as [H|H]; [|contradiction].
      split; [discriminate|].
      destruct (head_bucket bucket) as [[]|e]; [destruct H|now exists e].
    + intros [_ [e He]]. rewrite He. right. now left.
  - unfold lift, calls; cbn [snd]. split; [intros []|].
    intros [H _]. now contradiction H.
Qed.

Lemma upload_creates_bucket_iff_missing_witness :
  In S3CreateBucket
     (calls (Crud.upload_to_s3 (py "http://seaweedfs:8333")
               (py "my-local-bucket") bucket_missing
               (service_with_storage [] [] []) None (py "k") (py "text/x"))).
Proof.
  apply (proj2 (@upload_creates_bucket_iff_missing
                  (py "http://seaweedfs:8333") (py "my-local-bucket")
                  bucket_missing (service_with_storage [] [] []) None
                  (py "k") (py "text/x"))).
  split; [discriminate|eexists; reflexivity].
Defined.

(** X17. With a client configured, the result of [upload_to_s3] is decided by
    the rewind of the file object and by the upload alone: an exception of
    either is raised to the caller, and otherwise the URL
    [<endpoint>/<bucket>/<object name>] is returned, whether the bucket check
    or the bucket creation failed or not. *)
Theorem upload_result (endpoint bucket_name : pystr) (bucket : S3Bucket)
    (self : FileService) (seek : option (py_result unit))
    (object_name content_type : pystr) :
  s3_client self <> None ->
  outcome (Crud.upload_to_s3 endpoint bucket_name bucket self seek
             object_name content_type)
  = match seek with
    | Some (Raise e) => Raise e
    | _ =>
        match upload_fileobj bucket object_name content_type with
        | Ok _ =>
            Ok (endpoint ++ slash ++ bucket_name ++ slash ++ object_name)
        | Raise e => Raise e
        end
    end.
Proof.
  intros Hclient. unfold Crud.upload_to_s3.
  destruct (s3_client self) as [client|]; [|now contradiction Hclient].
  rewrite outcome_bind, bucket_step. unfold outcome at 1; cbn [fst].
  destruct seek as [[[]|e]|]; unfold lift, ret, perform, bind, outcome;
    cbn [fst]; try reflexivity;
    destruct (upload_fileobj bucket object_name content_type) as [[]|e'];
    reflexivity.
Qed.

Lemma upload_result_witness :
  outcome (Crud.upload_to_s3 (py "http://seaweedfs:8333")
             (py "my-local-bucket") bucket_missing
             (service_with_storage [] [] []) None (py "k") (py "text/x"))
  = Ok (py "http://seaweedfs:8333/my-local-bucket/k").
Proof.
  apply (@upload_result (py "http://seaweedfs:8333") (py "my-local-bucket")
           bucket_missing (service_with_storage [] [] []) None
           (py "k") (py "text/x")).
  discriminate.
Defined.

(** ** UTF-8 and [get_text_content_from_s3] *)

Lemma to_N_byte_of (n : N) : n < 256 -> Byte.to_N (byte_of n) = n.
Proof.
  intros Hn. unfold byte_of.
  destruct (Byte.of_N n) as [b|] eqn:E.
  - now apply Byte.to_of_N.
  - apply Byte.of_N_None_iff in E. lia.
Qed.


Ltac Zify.zify_post_hook ::= Z.to_euclidean_division_equations.

(** Decides the comparisons of a goal by arithmetic. *)
Ltac settle_tests :=
  repeat match goal with
    | |- context [?a <? ?b] =>
        destruct (N.ltb_spec a b); try lia
    | |- context [?a <=? ?b] =>
        destruct (N.leb_spec a b); try lia
    end.

Lemma decode_after_encode_char_cases (c : N) (rest : bytes) :
  c < 1114112 ->
  match encode_char c with
  | Ok encoded =>
      decode_utf8 (encoded ++ rest) = option_map (cons c) (decode_utf8 rest)
  | Raise _ => True
  end.
Proof.
  intros Hc. unfold encode_char.
  destruct (N.ltb_spec c 128) as [H1|H1].
  { cbn [app decode_utf8]. rewrite to_N_byte_of by lia.
    settle_tests. reflexivity. }
  destruct (N.ltb_spec c 2048) as [H2|H2].
  { cbn [app decode_utf8]. unfold is_continuation, low6.
    rewrite !to_N_byte_of by lia.
    replace ((192 + c / 64 - 192) * 64 + (128 + c mod 64 - 128)) with c
      by lia.
    settle_tests. reflexivity. }
  destruct (N.leb_spec 55296 c) as [H3|H3];
    [destruct (N.leb_spec c 57343) as [H4|H4]|]; cbn [andb].
  { exact I. }
  { destruct (N.ltb_spec c 65536) as [H5|H5].
    - cbn [app decode_utf8]. unfold is_continuation, low6.
      rewrite !to_N_byte_of by lia.
      replace ((224 + c / 4096 - 224) * 4096
               + (128 + (c / 64) mod 64 - 128) * 64
               + (128 + c mod 64 - 128)) with c by lia.
      settle_tests. reflexivity.
    - cbn [app decode_utf8]. unfold is_continuation, low6.
      rewrite !to_N_byte_of by lia.
      replace ((240 + c / 262144 - 240) * 262144
               + (128 + (c / 4096) mod 64 - 128) * 4096
               + (128 + (c / 64) mod 64 - 128) * 64
               + (128 + c mod 64 - 128)) with c by lia.
      settle_tests. reflexivity. }
  { destruct (N.ltb_spec c 65536) as [H5|H5]; [|lia].
    cbn [app decode_utf8]. unfold is_continuation, low6.
    rewrite !to_N_byte_of by lia.
    replace ((224 + c / 4096 - 224) * 4096
             + (128 + (c / 64) mod 64 - 128) * 64
             + (128 + c mod 64 - 128)) with c by lia.
    settle_tests. reflexivity. }
Qed.

Lemma decode_after_encode_char (c : N) (encoded rest : bytes) :
  c < 1114112 ->
  encode_char c = Ok encoded ->
  decode_utf8 (encoded ++ rest) = option_map (cons c) (decode_utf8 rest).
Proof.
  intros Hc E. pose proof (decode_after_encode_char_cases rest Hc) as H.
  now rewrite E in H.
Qed.

Lemma decode_after_encode (s : pystr) :
  forall encoded,
    Forall (fun c => c < 1114112) s ->
    encode_utf8 s = Ok encoded ->
    decode_utf8 encoded = Some s.
Proof.
  induction s as [|c s IH]; intros encoded Hs; cbn [encode_utf8].
  - intros E; inversion E. reflexivity.
  - inversion Hs as [|? ? Hc Hs']; subst.
    destruct (encode_char c) as [b|e] eqn:Ec; [|discriminate].
    destruct (encode_utf8 s) as [r|e] eqn:Er; [|discriminate].
    intros E; inversion E; subst encoded.
    rewrite (@decode_after_encode_char c b r Hc Ec).
    now rewrite (IH r Hs' eq_refl).
Qed.

Lemma continuation_bounds (b : Byte.byte) :
  is_continuation b = true -> 128 <= Byte.to_N b < 192.
Proof.
  unfold is_continuation. intros H. apply andb_prop in H.
  destruct H as [H1 H2]. apply N.leb_le in H1. apply N.ltb_lt in H2. lia.
Qed.

Lemma option_map_cons_some (c : N) (o : option pystr) (s : pystr) :
  option_map (cons c) o = Some s ->
  exists s', s = c :: s' /\ o = Some s'.
Proof.
  destruct o as [s'|]; [|discriminate].
  intros [= <-]. now exists s'.
Qed.






Lemma decoded_is_text (n : nat) :
  forall (data : bytes) (s : pystr),
    (List.length data <= n)%nat ->
    decode_utf8 data = Some s ->
    Forall (fun c => c < 1114112) s.
Proof.
  induction n as [|n IH]; intros data s Hlen Hd.
  - destruct data; [|cbn [List.length] in Hlen; lia].
    cbn [decode_utf8] in Hd. inversion Hd. constructor.
  - destruct data as [|b0 rest].
    { cbn [decode_utf8] in Hd. inversion Hd. constructor. }
    cbn [List.length] in Hlen. cbn [decode_utf8] in Hd.
    destruct (N.ltb_spec (Byte.to_N b0) 128) as [H1|H1].
    { apply option_map_cons_some in Hd. destruct Hd as [s' [-> Hd]].
      constructor; [lia|]. apply (IH rest s'); assumption || lia. }
    destruct (N.ltb_spec (Byte.to_N b0) 192) as [H2|H2]; [discriminate|].
    destruct (N.ltb_spec (Byte.to_N b0) 224) as [H3|H3].
    { destruct rest as [|b1 rest1]; [discriminate|].
      cbn [List.length] in Hlen.
      destruct (is_continuation b1 && _) eqn:Hc; [|discriminate].
      apply andb_prop in Hc. destruct Hc as [Hb1 _].
      apply continuation_bounds in Hb1.
      apply option_map_cons_some in Hd. destruct Hd as [s' [-> Hd]].
      constructor; [unfold low6; lia|].
      apply (IH rest1 s'); assumption || lia. }
    destruct (N.ltb_spec (Byte.to_N b0) 240) as [H4|H4].
    { destruct rest as [|b1 [|b2 rest2]]; try discriminate.
      cbn [List.length] in Hlen.
      destruct (is_continuation b1 && _ && _ && _) eqn:Hc; [|discriminate].
      apply andb_prop in Hc. destruct Hc as [Hc _].
      apply andb_prop in Hc. destruct Hc as [Hc _].
      apply andb_prop in Hc. destruct Hc as [Hb1 Hb2].
      apply continuation_bounds in Hb1. apply continuation_bounds in Hb2.
      apply option_map_cons_some in Hd. destruct Hd as [s' [-> Hd]].
      constructor; [unfold low6; lia|].
      apply (IH rest2 s'); assumption || lia. }
    destruct (N.ltb_spec (Byte.to_N b0) 248) as [H5|H5]; [|discriminate].
    destruct rest as [|b1 [|b2 [|b3 rest3]]]; try discriminate.
    cbn [List.length] in Hlen.
    destruct (is_continuation b1 && _ && _ && _ && _) eqn:Hc;
      [|discriminate].
    apply andb_prop in Hc. destruct Hc as [_ Hmax].
    apply N.leb_le in Hmax.
    apply option_map_cons_some in Hd. destruct Hd as [s' [-> Hd]].
    constructor; [lia|].
    apply (IH rest3 s'); assumption || lia.
Qed.

(** X18. Text written to blob storage as UTF-8 is read back unchanged: when
    the object under a key holds the UTF-8 encoding of a string,
    [get_text_content_from_s3] returns that string, after the one read. *)
Theorem text_round_trip (self : FileService) (client : S3Client)
    (key text : pystr) (data : bytes) :
  s3_client self = Some client ->
  Forall (fun c => c < 1114112) text ->
  encode_utf8 text = Ok data ->
  get_object client key = Ok data ->
  get_text_content_from_s3 self key = (Ok text, [S3GetObject key]).
Proof.
  intros Hclient Htext Henc Hget. unfold get_text_content_from_s3.
  rewrite Hclient. unfold perform, bind, try_except. rewrite Hget.
  now rewrite (decode_after_encode Htext Henc).
Qed.

Lemma text_round_trip_witness :
  get_text_content_from_s3
    (service_with_storage [] [] [(py "k", hello_bytes)]) (py "k")
  = (Ok (py "hello"), [S3GetObject (py "k")]).
Proof.
  apply (@text_round_trip
           (service_with_storage [] [] [(py "k", hello_bytes)])
           (client_over [(py "k", hello_bytes)]) (py "k") (py "hello")
           hello_bytes).
  - reflexivity.
  - repeat constructor.
  - reflexivity.
  - reflexivity.
Defined.


(** ** [get_notebook_files_content] *)

Section NotebookContent.

Variable self : FileService.

Lemma get_text_outcome (key : pystr) :
  outcome (get_text_content_from_s3 self key)
  = Ok match s3_client self with
       | Some client =>
           match get_object client key with
           | Ok data =>
               match decode_utf8 data with
               | Some text => text
               | None => []
               end
           | Raise _ => []
           end
       | None => []
       end.
Proof.
  unfold get_text_content_from_s3.
  destruct (s3_client self) as [client|]; [|reflexivity].
  unfold perform, bind, try_except, ret, lift, outcome.
  destruct (get_object client key) as [data|e]; [|reflexivity].
  now destruct (decode_utf8 data).
Qed.

Lemma get_text_calls (key : pystr) :
  calls (get_text_content_from_s3 self key)
  = match s3_client self with
    | Some _ => [S3GetObject key]
    | None => []
    end.
Proof.
  unfold get_text_content_from_s3.
  destruct (s3_client self) as [client|]; [|reflexivity].
  unfold perform, bind, try_except, ret, lift, calls.
  destruct (get_object client key) as [data|e]; [|reflexivity].
  now destruct (decode_utf8 data).
Qed.

(** The body for one file never raises. *)
Lemma file_part_returns (file : NotebookFile) :
  outcome (file_part self file) = Ok (part_of self file).
Proof.
  unfold part_of.
  assert (H : exists part, outcome (file_part self file) = Ok part).
  { unfold file_part.
    destruct (has_type (py "text/") file).
    - rewrite outcome_bind.
      destruct (File.unique_filename (file_of file)) as [key|].
      + rewrite get_text_outcome.
        match goal with
        | |- context [if truthy ?t then _ else _] => destruct (truthy t)
        end; eexists; reflexivity.
      + eexists; reflexivity.
    - destruct (has_type (py "audio/") file); [|eexists; reflexivity].
      destruct (processing_result file) as [[items|]|];
        try (eexists; reflexivity).
      destruct (truthy items); [|eexists; reflexivity].
      destruct (dict_get (py "transcription") items) as [t|];
        [|eexists; reflexivity].
      destruct (truthy t); eexists; reflexivity. }
  destruct H as [part H]. now rewrite H.
Qed.

(** Only a text file asks blob storage, and only to read. *)
Lemma file_part_calls (file : NotebookFile) :
  calls (file_part self file)
  = if has_type (py "text/") file then
      match File.unique_filename (file_of file), s3_client self with
      | Some key, Some _ => [S3GetObject key]
      | _, _ => []
      end
    else [].
Proof.
  unfold file_part.
  destruct (has_type (py "text/") file).
  - rewrite calls_bind.
    destruct (File.unique_filename (file_of file)) as [key|].
    + rewrite get_text_outcome, get_text_calls.
      match goal with
      | |- context [if truthy ?t then _ else _] => destruct (truthy t)
      end; unfold ret, calls; cbn [snd]; now rewrite app_nil_r.
    + reflexivity.
  - destruct (has_type (py "audio/") file); [|reflexivity].
    destruct (processing_result file) as [[items|]|]; try reflexivity.
    destruct (truthy items); [|reflexivity].
    destruct (dict_get (py "transcription") items) as [t|]; [|reflexivity].
    now destruct (truthy t).
Qed.

Lemma collect_parts_spec (files : list NotebookFile) :
  forall content_parts,
    collect_parts self files content_parts
    = (Ok (content_parts ++ flat_map (part_of self) files),
       flat_map (fun file => calls (file_part self file)) files).
Proof.
  induction files as [|file rest IH]; intros content_parts;
    cbn [collect_parts flat_map].
  - unfold ret. now rewrite app_nil_r.
  - pose proof (file_part_returns file) as Ho.
    destruct (file_part self file) as [r l] eqn:E.
    unfold outcome in Ho; cbn [fst] in Ho. subst r.
    unfold calls at 1; cbn [snd].
    unfold bind at 2. unfold ret at 1. unfold try_except.
    unfold bind. rewrite IH. rewrite app_nil_r.
    now rewrite <- app_assoc.
Qed.

Lemma notebook_content_spec (files : list NotebookFile)
    (user_id notebook_id : pystr) :
  get_notebook_files_content self (Ok files) user_id notebook_id
  = (Ok (join (newline ++ newline) (flat_map (part_of self) files)),
     RepoListByUserId user_id notebook_id
     :: flat_map (fun file => calls (file_part self file)) files).
Proof.
  unfold get_notebook_files_content, perform. unfold bind at 1.
  destruct files as [|file rest]; [reflexivity|].
  cbn [truthy]. rewrite collect_parts_spec. unfold bind, ret.
  cbn [app]. now rewrite app_nil_r.
Qed.

Lemma flat_map_filter {A B : Type} (keep : A -> bool) (g : A -> list B)
    (l : list A) :
  (forall a, keep a = false -> g a = []) ->
  flat_map g (filter keep l) = flat_map g l.
Proof.
  intros H. induction l as [|a l IH]; [reflexivity|].
  cbn [filter flat_map]. destruct (keep a) eqn:E.
  - cbn [flat_map]. now rewrite IH.
  - now rewrite (H a E), IH.
Qed.

Lemma part_of_other (file : NotebookFile) :
  is_text_or_audio file = false ->
  part_of self file = [] /\ calls (file_part self file) = [].
Proof.
  unfold is_text_or_audio. intros H. apply orb_false_elim in H.
  destruct H as [Ht Ha]. unfold part_of, file_part. now rewrite Ht, Ha.
Qed.

End NotebookContent.

(** X20. [get_notebook_files_content] looks at text and audio files only:
    records of any other content type, or without one, can be dropped from
    the listing without changing the returned text or the calls made. *)
Theorem notebook_content_ignores_other_files (self : FileService)
    (files : list NotebookFile) (user_id notebook_id : pystr) :
  get_notebook_files_content self (Ok files) user_id notebook_id
  = get_notebook_files_content self (Ok (filter is_text_or_audio files))
      user_id notebook_id.
Proof.
  rewrite !notebook_content_spec.
  rewrite !(flat_map_filter is_text_or_audio); [reflexivity| |].
  - intros f Hf. now apply part_of_other.
  - intros f Hf. now apply part_of_other.
Qed.


(** X22. With no blob storage client only transcriptions are returned: text
    files add nothing, whatever their inline content, and the result and the
    calls are those for the audio files of the listing alone. *)
Theorem notebook_content_without_storage (self : FileService)
    (files : list NotebookFile) (user_id notebook_id : pystr) :
  s3_client self = None ->
  get_notebook_files_content self (Ok files) user_id notebook_id
  = get_notebook_files_content self
      (Ok (filter (has_type (py "audio/")) files)) user_id notebook_id.
Proof.
  intros Hnone. rewrite !notebook_content_spec.
  assert (H : forall f, has_type (py "audio/") f = false ->
                        part_of self f = []
                        /\ calls (file_part self f) = []).
  { intros f Ha. rewrite file_part_calls. unfold part_of, file_part.
    rewrite Ha, Hnone.
    destruct (has_type (py "text/") f); [|split; reflexivity].
    split.
    - rewrite outcome_bind.
      destruct (File.unique_filename (file_of f)) as [key|].
      + rewrite get_text_outcome, Hnone. reflexivity.
      + reflexivity.
    - now destruct (File.unique_filename (file_of f)). }
  rewrite !(flat_map_filter (has_type (py "audio/"))); [reflexivity| |].
  - intros f Hf. now apply H.
  - intros f Hf. now apply H.
Qed.

Lemma notebook_content_without_storage_witness :
  get_notebook_files_content (service_without_storage [] [])
    (Ok [notes_txt; take_wav; cover_png]) (py "user") (py "nb")
  = get_notebook_files_content (service_without_storage [] [])
      (Ok [take_wav]) (py "user") (py "nb").
Proof.
  apply (@notebook_content_without_storage (service_without_storage [] [])
           [notes_txt; take_wav; cover_png] (py "user") (py "nb")).
  reflexivity.
Defined.

Example notebook_content_sample :
  get_notebook_files_content
    (service_with_storage [] [] [(py "k", hello_bytes)])
    (Ok [notes_txt; cover_png; take_wav]) (py "user") (py "nb")
  = (Ok (py "--- File: notes.txt ---" ++ newline ++ py "hello"
         ++ newline ++ newline
         ++ py "--- File: take.wav (Transcription) ---" ++ newline
         ++ py "hi"),
     [RepoListByUserId (py "user") (py "nb"); S3GetObject (py "k")]).
Proof. vm_compute. reflexivity. Qed.

(** ** [generate_unique_filename] *)

Lemma after_last_none (s : pystr) :
  ~ In dot s -> after_last dot s = None.
Proof.
  induction s as [|c s IH]; intros H; cbn [after_last]; [reflexivity|].
  rewrite IH by (intros Hin; apply H; now right).
  destruct (N.eqb_spec c dot) as [->|]; [|reflexivity].
  exfalso. apply H. now left.
Qed.

Lemma after_last_split (stem tail : pystr) :
  ~ In dot tail -> after_last dot (stem ++ dot :: tail) = Some tail.
Proof.
  intros H. induction stem as [|c stem IH]; cbn [app after_last].
  - rewrite (@after_last_none tail H). now rewrite N.eqb_refl.
  - now rewrite IH.
Qed.

(** X23. The storage name keeps the extension that follows the last dot of
    the original name, lowered, and nothing else of it: for a name
    [<stem>.<tail>] with no dot in [tail], the result is
    [<timestamp>_<hex>.<lower(tail)>], or [<timestamp>_<hex>] alone when the
    lowered tail is empty (a name ending in a dot); a name without any dot
    gives [<timestamp>_<hex>]. *)
Theorem unique_filename_keeps_last_extension (lower : pystr -> pystr)
    (timestamp uuid_hex stem tail : pystr) :
  ~ In dot tail ->
  generate_unique_filename lower timestamp uuid_hex (stem ++ dot :: tail)
  = (if truthy (lower tail)
     then timestamp ++ py "_" ++ uuid_hex ++ py "." ++ lower tail
     else timestamp ++ py "_" ++ uuid_hex)
  /\ generate_unique_filename lower timestamp uuid_hex tail
     = timestamp ++ py "_" ++ uuid_hex.
Proof.
  intros H. unfold generate_unique_filename.
  rewrite (@after_last_split stem tail H), (@after_last_none tail H).
  cbn [truthy].
  split; [|reflexivity].
  destruct (truthy (lower tail)); [|reflexivity].
  now rewrite <- !app_assoc.
Qed.

Lemma unique_filename_keeps_last_extension_witness :
  generate_unique_filename lower_ascii (py "1700000000") (py "ab12")
    (py "archive.tar.GZ")
  = py "1700000000_ab12.gz".
Proof.
  apply (proj1 (@unique_filename_keeps_last_extension lower_ascii
                  (py "1700000000") (py "ab12") (py "archive.tar")
                  (py "GZ") ltac:(vm_compute; intuition discriminate))).
Defined.

(** ** [format_file_size] *)

Example format_file_size_samples :
  format_file_size (Some 1023%Z) = py "1023 B"
  /\ format_file_size (Some 1280%Z) = py "1.2 KB"
  /\ format_file_size (Some 1536%Z) = py "1.5 KB"
  /\ format_file_size (Some 1048575%Z) = py "1024 KB"
  /\ format_file_size (Some 5497558138880000%Z) = py "5000 TB"
  /\ format_file_size (Some (-5)%Z) = py "0 B".
Proof. repeat split; vm_compute; reflexivity. Qed.

Lemma uint_digits_are_digits (d : Decimal.uint) :
  Forall (fun x => 48 <= x <= 57) (uint_digits d).
Proof.
  induction d; cbn [uint_digits]; constructor; auto; lia.
Qed.

Lemma rstrip_char_keeps (c : N) (s : pystr) :
  Forall (fun x => x <> c) s -> rstrip_char c s = s.
Proof.
  induction 1 as [|x s Hx _ IH]; cbn [rstrip_char]; [reflexivity|].
  rewrite IH. destruct s; [|reflexivity].
  destruct (N.eqb_spec x c); [contradiction|reflexivity].
Qed.

Lemma rstrip_char_snoc_other (c x : N) (s : pystr) :
  x <> c -> rstrip_char c (s ++ [x]) = s ++ [x].
Proof.
  intros Hx. induction s as [|y s IH]; cbn [app rstrip_char].
  - destruct (N.eqb_spec x c); [contradiction|reflexivity].
  - rewrite IH. now destruct s.
Qed.

Lemma rstrip_char_snoc_same (c : N) (s : pystr) :
  rstrip_char c (s ++ [c]) = rstrip_char c s.
Proof.
  induction s as [|y s IH]; cbn [app rstrip_char].
  - now rewrite N.eqb_refl.
  - now rewrite IH.
Qed.

(** A whole number of bytes is shown without decimals. *)
Lemma whole_number_shown_plain (n : N) :
  rstrip_char dot (rstrip_char 48 (fixed1 (10 * n))) = decimal n.
Proof.
  unfold fixed1.
  replace (10 * n / 10) with n by lia.
  replace ((10 * n) mod 10) with 0 by lia.
  change (decimal 0) with [48].
  change (decimal n ++ dot :: [48]) with (decimal n ++ [dot] ++ [48]).
  rewrite app_assoc, rstrip_char_snoc_same.
  rewrite rstrip_char_snoc_other by (unfold dot; lia).
  rewrite rstrip_char_snoc_same.
  apply rstrip_char_keeps. unfold decimal.
  eapply Forall_impl; [|apply uint_digits_are_digits].
  intros x Hx. cbv beta in Hx. unfold dot. intros ->. lia.
Qed.

Lemma nearest_tenths_whole (n : N) : nearest_tenths n 1 = 10 * n.
Proof.
  unfold nearest_tenths. cbv zeta.
  replace ((10 * n) mod 1) with 0 by lia.
  replace (10 * n / 1) with (10 * n) by lia.
  reflexivity.
Qed.

(** X24. Sizes below 1024 bytes are shown as the plain number of bytes,
    without decimals: [format_file_size(n)] is [str(n) + " B"]. *)
Theorem small_sizes_in_bytes (n : N) :
  n < 1024 ->
  format_file_size (Some (Z.of_N n)) = decimal n ++ py " B".
Proof.
  intros Hn. unfold format_file_size.
  destruct (Z.ltb_spec (Z.of_N n) 0) as [H|_]; [lia|].
  destruct (Z.eqb_spec (Z.of_N n) 0) as [H|H].
  - replace n with 0 by lia. reflexivity.
  - rewrite N2Z.id. cbn [scale].
    destruct (N.leb_spec (1024 * 1) n) as [H1|_]; [lia|]. cbn [andb].
    rewrite nearest_tenths_whole, whole_number_shown_plain.
    reflexivity.
Qed.

Lemma small_sizes_in_bytes_witness :
  format_file_size (Some 512%Z) = py "512 B".
Proof.
  apply (@small_sizes_in_bytes 512). reflexivity.
Defined.

Lemma scale_to_unit (n : N) (k : nat) :
  (k <= 4)%nat ->
  1024 ^ N.of_nat k <= n ->
  ((k < 4)%nat -> n < 1024 ^ N.of_nat (S k)) ->
  scale 4 n 1 0 = (n, 1024 ^ N.of_nat k, k).
Proof.
  intros Hk Hlo Hhi.
  destruct k as [|[|[|[|[|k]]]]]; [| | | | |lia];
    cbn [N.of_nat Pos.of_succ_nat Pos.succ N.pow Pos.pow Pos.iter Pos.mul]
      in *; cbn [scale];
    repeat match goal with
      | |- context [?a <=? ?b] =>
          destruct (N.leb_spec a b); try lia; cbn [andb Nat.ltb Nat.leb]
      end; try reflexivity;
    try (specialize (Hhi ltac:(lia)); lia).
Qed.

(** X25. The unit is the largest power of 1024 that fits, up to TB, and the
    number shown is the size in that unit rounded to the nearest tenth, with
    a trailing [.0] dropped: for [1024^k <= n], [k <= 4], and [n] below
    [1024^(k+1)] unless the unit is TB. ([n] below [2^53], where the float
    arithmetic of the source is exact.) *)
Theorem size_unit_and_rounding (n : N) (k : nat) :
  n < 2 ^ 53 ->
  (k <= 4)%nat ->
  1024 ^ N.of_nat k <= n ->
  ((k < 4)%nat -> n < 1024 ^ N.of_nat (S k)) ->
  format_file_size (Some (Z.of_N n))
  = rstrip_char dot
      (rstrip_char 48 (fixed1 (nearest_tenths n (1024 ^ N.of_nat k))))
    ++ py " " ++ nth k size_names [].
Proof.
  intros _ Hk Hlo Hhi. unfold format_file_size.
  assert (Hpos : 0 < n).
  { pose proof (N.pow_nonzero 1024 (N.of_nat k) ltac:(lia)). lia. }
  destruct (Z.ltb_spec (Z.of_N n) 0) as [H|_]; [lia|].
  destruct (Z.eqb_spec (Z.of_N n) 0) as [H|_]; [lia|].
  rewrite N2Z.id, (@scale_to_unit n k Hk Hlo Hhi). reflexivity.
Qed.

Lemma size_unit_and_rounding_witness :
  format_file_size (Some 1280%Z) = py "1.2 KB".
Proof.
  apply (@size_unit_and_rounding 1280 1);
    [reflexivity|lia|vm_compute; discriminate|intros _; reflexivity].
Defined.

(** The tenths shown are the nearest ones: they differ from the exact size
    by at most half a tenth. *)
Lemma nearest_tenths_is_nearest (num den : N) :
  0 < den ->
  2 * (nearest_tenths num den * den) <= 20 * num + den
  /\ 20 * num <= 2 * (nearest_tenths num den * den) + den.
Proof.
  intros Hden. unfold nearest_tenths. cbv zeta.
  pose proof (N.div_mod (10 * num) den ltac:(lia)) as Hdm.
  pose proof (N.mod_lt (10 * num) den ltac:(lia)) as Hlt.
  set (q := 10 * num / den) in *. set (r := (10 * num) mod den) in *.
  destruct (N.ltb_spec (2 * r) den) as [H1|H1]; [nia|].
  destruct (N.ltb_spec den (2 * r)) as [H2|H2]; [nia|].
  destruct (N.even q); nia.
Qed.
